(** * Draggable drawers: the v5 drawer (src/v5/App.tsx)

    A shallow embedding of the drag-and-snap logic of the [Drawer] component,
    of its mount/unmount helper [AnimatedRender] and of the [useKeyPress]
    hook, followed by the properties of the specification.

    Numbers.  A JavaScript [number] that holds a pixel quantity is modelled
    as a rational ([Q]) with exact arithmetic.  The one place where the code
    divides (the overlay opacity) can leave the finite numbers, so its result
    is a [JsNum], which adds the two infinities and NaN.

    Effects.  The handlers mutate [dragState.current], inline styles and
    call the host's [onClose]; the embedding threads a [World] record through
    every handler and counts the [onClose] calls. *)

From Stdlib Require Import QArith Qabs Lqa Lia List String Bool Arith.
Import ListNotations.

Open Scope Q_scope.

(* ------------------------------------------------------------------ *)
(** ** JavaScript numbers *)

(** Strict comparison [x < y] of two finite numbers. *)
Definition Qlt_bool (x y : Q) : bool := negb (Qle_bool y x).

(** Truthiness of a finite number: every number but zero. *)
Definition truthy (x : Q) : bool := negb (Qeq_bool x 0).

(** Truthiness of [number | undefined] and of [number | null]. *)
Definition truthy_opt (x : option Q) : bool :=
  match x with
  | Some v => truthy v
  | None => false
  end.

(** [x || 0] for [x : number | undefined]. *)
Definition or_zero (x : option Q) : Q :=
  match x with
  | Some v => if truthy v then v else 0
  | None => 0
  end.

(** The result of an expression that may divide by zero. *)
Inductive JsNum : Type :=
| Fin (q : Q)
| PosInf
| NegInf
| NaN.

(** [n / d] on finite operands. *)
Definition js_div (n d : Q) : JsNum :=
  if Qeq_bool d 0 then
    if Qeq_bool n 0 then NaN
    else if Qlt_bool 0 n then PosInf else NegInf
  else Fin (n / d).

(** [1 - x]. *)
Definition js_one_minus (x : JsNum) : JsNum :=
  match x with
  | Fin q => Fin (1 - q)
  | PosInf => NegInf
  | NegInf => PosInf
  | NaN => NaN
  end.

(** [Math.max(0, x)]. *)
Definition js_max0 (x : JsNum) : JsNum :=
  match x with
  | Fin q => if Qlt_bool q 0 then Fin 0 else Fin q
  | PosInf => PosInf
  | NegInf => Fin 0
  | NaN => NaN
  end.

(** A value that is a finite number of the closed interval [0,1]. *)
Definition in_unit_interval (x : JsNum) : Prop :=
  match x with
  | Fin q => 0 <= q /\ q <= 1
  | _ => False
  end.

(* ------------------------------------------------------------------ *)
(** ** Data model *)

Definition DURATION : Q := 400.
Definition FULL_HEIGHT_OFFSET : Q := 20.
Definition BACKGROUND_INSET : Q := 8.

(** [dragDirection: "up" | "down" | null] is an [option Direction]. *)
Inductive Direction : Type := Up | Down.

(** [fullHeight?: "auto" | "100%"]. *)
Inductive FullHeight : Type := Auto | Full100.

Inductive OpenState : Type := OPeek | OFull | OClosed.

(** The record held by the [dragState] ref. *)
Record DragState : Type := mkDragState {
  openState : OpenState;
  isDragging : bool;
  translateY : Q;
  dragStartY : Q;
  initialYOffset : Q;
  dragDirection : option Direction;
  touchStartedOnDrawer : bool
}.

(** The value the ref is created with. *)
Definition initialDragState : DragState :=
  mkDragState OClosed false 0 0 0 None false.

(** What one render of [Drawer] closes over: its props and the two measured
    heights ([useViewportHeight], [useBoundingClientRect]). *)
Record Render : Type := mkRender {
  isOpen : bool;
  peekHeight : option Q;
  fullHeight : FullHeight;
  viewportHeight : Q;
  drawerContentHeight : Q
}.

(* ------------------------------------------------------------------ *)
(** ** Position resolver *)

Definition getPeekOpenTranslateY (r : Render) : Q :=
  viewportHeight r - or_zero (peekHeight r).

Definition getFullOpenTranslateY (r : Render) : Q :=
  match fullHeight r with
  | Full100 => FULL_HEIGHT_OFFSET
  | Auto => viewportHeight r - drawerContentHeight r
  end.

Definition getClosedTranslateY (r : Render) : Q :=
  viewportHeight r.

(* ------------------------------------------------------------------ *)
(** ** Surfaces and the animation driver *)

(** [element.style.transition]: ["none"], or a transition of some
    milliseconds (the easing curve plays no part in what follows). *)
Inductive Transition : Type :=
| TransitionNone
| TransitionMs (ms : Q).

(** An element together with the timeout ref of its animation channel.
    [styles] is what the channel writes, [pendingClear] the delay of the
    pending timer that will reset the transition, if one is pending. *)
Record Surface (A : Type) : Type := mkSurface {
  styles : A;
  transition : Transition;
  pendingClear : option Q
}.
Arguments mkSurface {A} _ _ _.
Arguments styles {A} _.
Arguments transition {A} _.
Arguments pendingClear {A} _.

(** [animate] on an element that exists: a pending timer is cleared, the
    styles and the transition are written and a new timer is started. *)
Definition animate {A : Type} (newStyles : A) (duration : Q)
    (s : Surface A) : Surface A :=
  mkSurface newStyles (TransitionMs duration) (Some duration).

(** [animate] with [element: HTMLElement | null]: nothing happens on [null]. *)
Definition animate_opt {A : Type} (newStyles : A) (duration : Q)
    (s : option (Surface A)) : option (Surface A) :=
  match s with
  | None => None
  | Some e => Some (animate newStyles duration e)
  end.

(** The timer of a channel fires: the transition is switched off. *)
Definition clearTransition {A : Type} (s : Surface A) : Surface A :=
  mkSurface (styles s) TransitionNone None.

(** The styles [animateBackground] writes on the root element. *)
Record BackgroundStyle : Type := mkBackgroundStyle {
  bgScale : JsNum;
  bgTranslateY : Q;
  bgBorderRadius : Q
}.

Inductive BackgroundDirection : Type := BgIn | BgOut.

(** Everything the handlers of one drawer read and write.
    [drawer] is the drawer element ([translateY] of its transform, in
    pixels); the handlers exist only while it does.  [overlay] and [root]
    may be missing ([overlayRef.current], [getElementById("root")]).
    [closeCalls] counts the calls of the host's [onClose];
    [pendingFrames] counts the callbacks given to [requestAnimationFrame]. *)
Record World : Type := mkWorld {
  dragState : DragState;
  drawer : Surface Q;
  overlay : option (Surface JsNum);
  root : option (Surface BackgroundStyle);
  rootWidth : Q;
  userSelect : string;
  pendingFrames : nat;
  closeCalls : nat
}.

Definition setDragState (ds : DragState) (w : World) : World :=
  mkWorld ds (drawer w) (overlay w) (root w) (rootWidth w)
          (userSelect w) (pendingFrames w) (closeCalls w).

Definition setDrawer (d : Surface Q) (w : World) : World :=
  mkWorld (dragState w) d (overlay w) (root w) (rootWidth w)
          (userSelect w) (pendingFrames w) (closeCalls w).

Definition setOverlay (o : option (Surface JsNum)) (w : World) : World :=
  mkWorld (dragState w) (drawer w) o (root w) (rootWidth w)
          (userSelect w) (pendingFrames w) (closeCalls w).

Definition setRoot (b : option (Surface BackgroundStyle)) (w : World) : World :=
  mkWorld (dragState w) (drawer w) (overlay w) b (rootWidth w)
          (userSelect w) (pendingFrames w) (closeCalls w).

Definition setUserSelect (s : string) (w : World) : World :=
  mkWorld (dragState w) (drawer w) (overlay w) (root w) (rootWidth w)
          s (pendingFrames w) (closeCalls w).

Definition requestAnimationFrame (w : World) : World :=
  mkWorld (dragState w) (drawer w) (overlay w) (root w) (rootWidth w)
          (userSelect w) (S (pendingFrames w)) (closeCalls w).

(** The host's callback: the drawer only calls it. *)
Definition onClose (w : World) : World :=
  mkWorld (dragState w) (drawer w) (overlay w) (root w) (rootWidth w)
          (userSelect w) (pendingFrames w) (S (closeCalls w)).

(** Field updates of [dragState.current]. *)
Definition setIsDragging (b : bool) (ds : DragState) : DragState :=
  mkDragState (openState ds) b (translateY ds) (dragStartY ds)
              (initialYOffset ds) (dragDirection ds) (touchStartedOnDrawer ds).

Definition setTranslateY (y : Q) (ds : DragState) : DragState :=
  mkDragState (openState ds) (isDragging ds) y (dragStartY ds)
              (initialYOffset ds) (dragDirection ds) (touchStartedOnDrawer ds).

Definition setDragStartY (y : Q) (ds : DragState) : DragState :=
  mkDragState (openState ds) (isDragging ds) (translateY ds) y
              (initialYOffset ds) (dragDirection ds) (touchStartedOnDrawer ds).

Definition setInitialYOffset (y : Q) (ds : DragState) : DragState :=
  mkDragState (openState ds) (isDragging ds) (translateY ds) (dragStartY ds)
              y (dragDirection ds) (touchStartedOnDrawer ds).

Definition setDragDirection (d : option Direction) (ds : DragState) : DragState :=
  mkDragState (openState ds) (isDragging ds) (translateY ds) (dragStartY ds)
              (initialYOffset ds) d (touchStartedOnDrawer ds).

Definition setTouchStartedOnDrawer (b : bool) (ds : DragState) : DragState :=
  mkDragState (openState ds) (isDragging ds) (translateY ds) (dragStartY ds)
              (initialYOffset ds) (dragDirection ds) b.

(** [dragState.current.translateY = y]. *)
Definition writeTranslateY (y : Q) (w : World) : World :=
  setDragState (setTranslateY y (dragState w)) w.

(** [getBackgroundOutScale], with the root element's width. *)
Definition getBackgroundOutScale (w : World) : JsNum :=
  match root w with
  | None => Fin 1
  | Some _ => js_div (rootWidth w - BACKGROUND_INSET - BACKGROUND_INSET) (rootWidth w)
  end.

(** [animateToPosition(translateY)], called without a duration. *)
Definition animateToPosition (y : Q) (w : World) : World :=
  setDrawer (animate y DURATION (drawer w)) w.

(** [animateOverlay(opacity)]. *)
Definition animateOverlay (o : Q) (w : World) : World :=
  setOverlay (animate_opt (Fin o) DURATION (overlay w)) w.

(** [animateBackground(direction)]. *)
Definition animateBackground (d : BackgroundDirection) (w : World) : World :=
  let scale := match d with BgOut => Fin 1 | BgIn => getBackgroundOutScale w end in
  let ty := match d with BgOut => 0 | BgIn => BACKGROUND_INSET end in
  let radius := match d with BgOut => 0 | BgIn => 10 end in
  setRoot (animate_opt (mkBackgroundStyle scale ty radius) DURATION (root w)) w.

(* ------------------------------------------------------------------ *)
(** ** Drawer controller: the open/close effect *)

Definition openCloseEffect (r : Render) (w : World) : World :=
  if isOpen r && truthy_opt (peekHeight r) then
    let w := writeTranslateY (getPeekOpenTranslateY r) w in
    let w := animateToPosition (translateY (dragState w)) w in
    let w := animateOverlay 1 w in
    animateBackground BgIn w
  else if isOpen r then
    let w := writeTranslateY (getFullOpenTranslateY r) w in
    let w := animateToPosition (translateY (dragState w)) w in
    let w := animateOverlay 1 w in
    animateBackground BgIn w
  else
    let w := writeTranslateY (getClosedTranslateY r) w in
    let w := animateToPosition (translateY (dragState w)) w in
    let w := animateOverlay 0 w in
    animateBackground BgOut w.

(* ------------------------------------------------------------------ *)
(** ** Gesture tracker *)

(** A pointer-down on the drawer: the pointer's [clientY] and the [top] of
    the drawer's bounding rectangle at that moment. *)
Record StartEvent : Type := mkStartEvent {
  startClientY : Q;
  rectTop : Q
}.

(** A pointer-move: the pointer's [clientY], [window.innerHeight] and the
    [height] of the drawer's bounding rectangle at that moment. *)
Record MoveEvent : Type := mkMoveEvent {
  clientY : Q;
  innerHeight : Q;
  rectHeight : Q
}.

Definition handleDragStart (e : StartEvent) (w : World) : World :=
  let ds := dragState w in
  let ds := setIsDragging true ds in
  let ds := setDragStartY (startClientY e) ds in
  let ds := setTouchStartedOnDrawer true ds in
  let ds := setInitialYOffset (startClientY e - rectTop e) ds in
  setUserSelect "none" (setDragState ds w).

(** The threshold at which the overlay is fully opaque. *)
Definition bottomThreshold (r : Render) (drawerHeight : Q) : Q :=
  match peekHeight r with
  | Some p => if truthy p then viewportHeight r - p
              else viewportHeight r - drawerHeight
  | None => viewportHeight r - drawerHeight
  end.

(** The opacity a classified move writes on the overlay. *)
Definition dragOpacity (r : Render) (drawerHeight newTranslateY : Q) : JsNum :=
  let threshold := bottomThreshold r drawerHeight in
  let progress :=
    js_div (newTranslateY - threshold) (viewportHeight r - threshold) in
  js_max0 (js_one_minus progress).

Definition handleDragMove (r : Render) (e : MoveEvent) (w : World) : World :=
  if negb (isDragging (dragState w)) then w
  else
    let diff := clientY e - dragStartY (dragState w) in
    let newTranslateY :=
      dragStartY (dragState w) + diff - initialYOffset (dragState w) in
    let prevTranslateY := translateY (dragState w) in
    let w := writeTranslateY newTranslateY w in
    (* Prevent drawer from being dragged too far up *)
    let amountDrawerShowing := innerHeight e - translateY (dragState w) in
    let drawerHeight := rectHeight e in
    if Qle_bool drawerHeight amountDrawerShowing then w
    else
      let w := setDrawer (mkSurface (translateY (dragState w))
                                    (transition (drawer w))
                                    (pendingClear (drawer w))) w in
      if Qlt_bool (Qabs diff) 15 then w
      else
        let w :=
          if Qlt_bool newTranslateY prevTranslateY then
            setDragState (setDragDirection (Some Up) (dragState w)) w
          else if Qlt_bool prevTranslateY newTranslateY then
            setDragState (setDragDirection (Some Down) (dragState w)) w
          else w in
        match overlay w with
        | Some o =>
            setOverlay (Some (mkSurface (dragOpacity r drawerHeight newTranslateY)
                                        (transition o) (pendingClear o))) w
        | None => w
        end.

(** [dragState.current.dragDirection === d]. *)
Definition direction_is (d : Direction) (ds : DragState) : bool :=
  match dragDirection ds, d with
  | Some Up, Up => true
  | Some Down, Down => true
  | _, _ => false
  end.

(** The target of the distance-based snap (no drag direction). *)
Definition snapTarget (r : Render) (currentPosition : Q) : Q :=
  let peekPosition :=
    if truthy_opt (peekHeight r) then Some (getPeekOpenTranslateY r) else None in
  let fullPosition := getFullOpenTranslateY r in
  match peekPosition with
  | Some p =>
      if truthy p then
        (* Has peek height - compare distances to both positions *)
        let distanceToPeek := Qabs (currentPosition - p) in
        let distanceToFull := Qabs (currentPosition - fullPosition) in
        if Qlt_bool distanceToPeek distanceToFull then p else fullPosition
      else fullPosition
  | None => fullPosition
  end.

Definition handleDragEnd (r : Render) (w : World) : World :=
  let w := setDragState (setIsDragging false (dragState w)) w in
  let w :=
    if direction_is Down (dragState w) && truthy_opt (peekHeight r)
       && Qlt_bool (translateY (dragState w)) (getPeekOpenTranslateY r) then
      let w := writeTranslateY (getPeekOpenTranslateY r) w in
      animateToPosition (translateY (dragState w)) w
    else if direction_is Down (dragState w) then
      onClose w
    else if direction_is Up (dragState w) && truthy_opt (peekHeight r) then
      let w := writeTranslateY (getFullOpenTranslateY r) w in
      animateToPosition (translateY (dragState w)) w
    else if direction_is Up (dragState w) then
      let w := writeTranslateY (getFullOpenTranslateY r) w in
      animateToPosition (translateY (dragState w)) w
    else
      (* If no drag direction, snap to closest position *)
      let w := writeTranslateY (snapTarget r (translateY (dragState w))) w in
      animateToPosition (translateY (dragState w)) w in
  requestAnimationFrame (setUserSelect EmptyString w).

(** The callback given to [requestAnimationFrame] by [handleDragEnd]. *)
Definition animationFrame (w : World) : World :=
  match pendingFrames w with
  | O => w
  | S n =>
      mkWorld (setTouchStartedOnDrawer false (dragState w)) (drawer w)
              (overlay w) (root w) (rootWidth w) (userSelect w) n (closeCalls w)
  end.

(** A whole gesture: pointer-down, the pointer-moves in order, pointer-up. *)
Definition runMoves (r : Render) (ms : list MoveEvent) (w : World) : World :=
  fold_left (fun w e => handleDragMove r e w) ms w.

Definition dragSequence (r : Render) (s : StartEvent) (ms : list MoveEvent)
    (w : World) : World :=
  handleDragEnd r (runMoves r ms (handleDragStart s w)).

(** A full click: pointer-down immediately followed by pointer-up. *)
Definition click (r : Render) (s : StartEvent) (w : World) : World :=
  dragSequence r s [] w.

(* ------------------------------------------------------------------ *)
(** ** useKeyPress *)

(** The [keydown] listener of [useKeyPress(key, callback)]. *)
Definition handleKeyPress (key : string) (callback : World -> World)
    (eventKey : string) (w : World) : World :=
  if String.eqb eventKey key then callback w else w.

(** The listener [Drawer] installs on every render,
    [useKeyPress("Escape", onClose)]: nothing of the render takes part. *)
Definition drawerKeydown (r : Render) (eventKey : string) (w : World) : World :=
  handleKeyPress "Escape" onClose eventKey w.

(* ------------------------------------------------------------------ *)
(** ** AnimatedRender *)

(** One instance of [AnimatedRender]: the [showing] prop of its last render,
    the [isMounted] state, the [timeoutRef] ref, and the host's timers that
    are still pending, each with its id and the time left before it fires.
    Every timer of the instance runs [setIsMounted(false)]. *)
Record Mounting : Type := mkMounting {
  showing : bool;
  isMounted : bool;
  timeoutRef : option nat;
  timers : list (nat * Q);
  nextTimer : nat
}.

(** [<AnimatedRender showing={isOpen} duration={DURATION + 100}>]. *)
Definition graceDuration : Q := DURATION + 100.

Definition clearTimeout (id : nat) (ts : list (nat * Q)) : list (nat * Q) :=
  filter (fun t => negb (Nat.eqb (fst t) id)) ts.

(** [if (timeoutRef.current) clearTimeout(timeoutRef.current)]: a timer id
    is a number, and zero is falsy. *)
Definition clearPending (m : Mounting) : Mounting :=
  match timeoutRef m with
  | Some id =>
      if Nat.eqb id 0 then m
      else mkMounting (showing m) (isMounted m) (timeoutRef m)
                      (clearTimeout id (timers m)) (nextTimer m)
  | None => m
  end.

(** The effect's cleanup. *)
Definition effectCleanup (m : Mounting) : Mounting := clearPending m.

(** The effect's body: [setIsMounted(prev => ...)]. *)
Definition effectBody (duration : Q) (m : Mounting) : Mounting :=
  if showing m then
    mkMounting (showing m) true (timeoutRef m) (timers m) (nextTimer m)
  else if isMounted m then
    let m := clearPending m in
    mkMounting (showing m) (isMounted m) (Some (nextTimer m))
               ((nextTimer m, duration) :: timers m) (S (nextTimer m))
  else m.

(** The first render, [useState(showing)], and the effect that follows. *)
Definition mount (duration : Q) (s : bool) : Mounting :=
  effectBody duration (mkMounting s s None [] 1).

(** A render with a new [showing]: when the dependency changed, the cleanup
    of the last effect runs and then the effect. *)
Definition setShowing (duration : Q) (b : bool) (m : Mounting) : Mounting :=
  if Bool.eqb b (showing m) then m
  else
    let m := mkMounting b (isMounted m) (timeoutRef m) (timers m) (nextTimer m) in
    effectBody duration (effectCleanup m).

(** [dt] milliseconds pass: the timers that are due fire. *)
Definition elapse (dt : Q) (m : Mounting) : Mounting :=
  let due := filter (fun t => Qle_bool (snd t) dt) (timers m) in
  let rest := filter (fun t => negb (Qle_bool (snd t) dt)) (timers m) in
  mkMounting (showing m)
             (match due with [] => isMounted m | _ :: _ => false end)
             (timeoutRef m)
             (map (fun t => (fst t, snd t - dt)) rest)
             (nextTimer m).

(** [isMounted || showing ? children : null]. *)
Definition rendersChildren (m : Mounting) : bool :=
  isMounted m || showing m.

Inductive MountEvent : Type :=
| SetShowing (b : bool)
| Elapse (dt : Q).

Definition mountStep (duration : Q) (m : Mounting) (e : MountEvent) : Mounting :=
  match e with
  | SetShowing b => setShowing duration b m
  | Elapse dt => elapse dt m
  end.

Definition runMounting (duration : Q) (es : list MountEvent) (m : Mounting)
    : Mounting :=
  fold_left (mountStep duration) es m.

Definition elapseAll (dts : list Q) (m : Mounting) : Mounting :=
  fold_left (fun m dt => elapse dt m) dts m.

Definition total (dts : list Q) : Q := fold_right Qplus 0 dts.

(* ------------------------------------------------------------------ *)
(** ** Sample configurations *)

(** Viewport 800, content 300, no peek, automatic height. *)
Definition basicRender (open : bool) : Render :=
  mkRender open None Auto 800 300.

(** Viewport 800, peek height 150, full height ["100%"]; the drawer is as
    high as the viewport less [FULL_HEIGHT_OFFSET]. *)
Definition peekRender (open : bool) : Render :=
  mkRender open (Some 150) Full100 800 780.

(** A peek height that exceeds the content height. *)
Definition invertedRender : Render := mkRender true (Some 500) Auto 800 300.

(** A peek height equal to the viewport height. *)
Definition tallPeekRender (open : bool) : Render :=
  mkRender open (Some 800) Full100 800 780.

(** The world of a drawer that has just been mounted, before its first
    open/close effect: the inline styles of the JSX. *)
Definition initialWorld (r : Render) : World :=
  mkWorld initialDragState
          (mkSurface (viewportHeight r) TransitionNone None)
          (Some (mkSurface (Fin 0) TransitionNone None))
          (Some (mkSurface (mkBackgroundStyle (Fin 1) 0 0) TransitionNone None))
          500 EmptyString 0 0.

(** The drawer after an open request. *)
Definition openedWorld (r : Render) : World :=
  openCloseEffect r (initialWorld r).

(** The peek drawer resting at its full-open offset: opened, then dragged
    300 pixels up and released. *)
Definition fullOpenWorld : World :=
  animationFrame
    (dragSequence (peekRender true) (mkStartEvent 700 650)
       [mkMoveEvent 400 800 780] (openedWorld (peekRender true))).

(** The same drawer grabbed at its top edge and dragged 200 pixels down:
    the state just before the pointer is released. *)
Definition draggedDownWorld : World :=
  runMoves (peekRender true) [mkMoveEvent 300 800 780]
    (handleDragStart (mkStartEvent 100 20) fullOpenWorld).

(** The position a pointer-move proposes: the pointer's position less the
    offset at which the drawer was grabbed. *)
Definition proposedTranslateY (e : MoveEvent) (ds : DragState) : Q :=
  dragStartY ds + (clientY e - dragStartY ds) - initialYOffset ds.

(** The basic drawer, open, grabbed 100 pixels below its top edge. *)
Definition grabbedBasicWorld : World :=
  handleDragStart (mkStartEvent 600 500) (openedWorld (basicRender true)).

(** The peek drawer, open at its peek offset, grabbed 50 pixels below its
    top edge. *)
Definition grabbedPeekWorld : World :=
  handleDragStart (mkStartEvent 700 650) (openedWorld (peekRender true)).

(** The straight line that is 1 at [threshold] and 0 at [bottom]: the
    opacity the specification asks for at position [y]. *)
Definition linearOpacity (threshold bottom y : Q) : Q :=
  1 - (y - threshold) / (bottom - threshold).

(** The position of the overlay's full opacity named by the specification:
    the peek offset when a peek height is configured, otherwise the viewport
    height less the drawer's rendered height. *)
Definition openThreshold (r : Render) (drawerHeight : Q) : Q :=
  if truthy_opt (peekHeight r) then getPeekOpenTranslateY r
  else viewportHeight r - drawerHeight.

(** The peek drawer after the downward drag has been released: it rests at
    its peek offset. *)
Definition settledAtPeekWorld : World :=
  animationFrame (handleDragEnd (peekRender true) draggedDownWorld).

(* ------------------------------------------------------------------ *)
(** ** States of an AnimatedRender instance *)

(** What every reachable instance satisfies: a pending timer is the one the
    ref names, timer ids are positive, and while [showing] holds the content
    is mounted and no timer is pending. *)
Definition MountingInv (m : Mounting) : Prop :=
  (forall t, In t (timers m) -> timeoutRef m = Some (fst t) /\ fst t <> 0%nat) /\
  nextTimer m <> 0%nat /\
  (showing m = true -> isMounted m = true /\ timers m = []).

(** Closed but still mounted, with [rem] milliseconds left on the one
    pending timer. *)
Definition Closing (rem : Q) (m : Mounting) : Prop :=
  showing m = false /\ isMounted m = true /\
  exists id r, timers m = [(id, r)] /\ r == rem /\
               timeoutRef m = Some id /\ id <> 0%nat.

(** Closed and detached. *)
Definition Unmounted (m : Mounting) : Prop :=
  showing m = false /\ isMounted m = false /\ timers m = [].

(** Open, mounted, and nothing pending. *)
Definition Shown (m : Mounting) : Prop :=
  showing m = true /\ isMounted m = true /\ timers m = [].

(** An instance that went through the events [es] since its first render
    with [showing = s0], was then asked to close, and has since seen the
    time steps [dts] pass. *)
Definition afterClose (duration : Q) (s0 : bool) (es : list MountEvent)
    (dts : list Q) : Mounting :=
  elapseAll dts
    (setShowing duration false (runMounting duration es (mount duration s0))).

(* ------------------------------------------------------------------ *)
(** ** Clicks *)


(** [handleClick], the drawer's [click] listener.  [closeButton] tells
    whether [target.closest('button[slot="close"]')] finds a button. *)
Definition handleClick (closeButton : bool) (w : World) : World :=
  if closeButton then onClose w else w.

(* ------------------------------------------------------------------ *)
(** ** The listeners of the drag effect *)

Inductive EventTarget : Type := DrawerElement | Window.

Inductive EventType : Type :=
| Click | MouseDown | TouchStart | MouseMove | TouchMove | MouseUp | TouchEnd.

(** A registered listener.  Every run of the effect creates its handlers
    anew; [closure] is the number of the run that created the function. *)
Record Listener : Type := mkListener {
  listenerTarget : EventTarget;
  listenerType : EventType;
  closure : nat
}.

Definition target_eqb (a b : EventTarget) : bool :=
  match a, b with
  | DrawerElement, DrawerElement => true
  | Window, Window => true
  | _, _ => false
  end.

Definition type_eqb (a b : EventType) : bool :=
  match a, b with
  | Click, Click => true
  | MouseDown, MouseDown => true
  | TouchStart, TouchStart => true
  | MouseMove, MouseMove => true
  | TouchMove, TouchMove => true
  | MouseUp, MouseUp => true
  | TouchEnd, TouchEnd => true
  | _, _ => false
  end.

Definition listener_eqb (a b : Listener) : bool :=
  target_eqb (listenerTarget a) (listenerTarget b)
  && type_eqb (listenerType a) (listenerType b)
  && Nat.eqb (closure a) (closure b).

(** [addEventListener]: a listener already registered is not added again. *)
Definition addEventListener (l : Listener) (ls : list Listener) : list Listener :=
  if existsb (listener_eqb l) ls then ls else ls ++ [l].

Definition removeEventListener (l : Listener) (ls : list Listener)
    : list Listener :=
  filter (fun x => negb (listener_eqb l x)) ls.

(** The registrations at the end of the drag effect, for run [run]. *)
Definition dragEffectSetup (run : nat) (ls : list Listener) : list Listener :=
  let ls := addEventListener (mkListener DrawerElement Click run) ls in
  let ls := addEventListener (mkListener DrawerElement MouseDown run) ls in
  let ls := addEventListener (mkListener DrawerElement TouchStart run) ls in
  let ls := addEventListener (mkListener Window MouseMove run) ls in
  let ls := addEventListener (mkListener Window TouchMove run) ls in
  let ls := addEventListener (mkListener Window MouseUp run) ls in
  addEventListener (mkListener Window TouchEnd run) ls.

(** The cleanup the drag effect returns, for run [run]. *)
Definition dragEffectCleanup (run : nat) (ls : list Listener) : list Listener :=
  let ls := removeEventListener (mkListener DrawerElement MouseDown run) ls in
  let ls := removeEventListener (mkListener DrawerElement TouchStart run) ls in
  let ls := removeEventListener (mkListener Window MouseMove run) ls in
  let ls := removeEventListener (mkListener Window TouchMove run) ls in
  let ls := removeEventListener (mkListener Window MouseUp run) ls in
  removeEventListener (mkListener Window TouchEnd run) ls.

(** The listeners on one drawer element after the effect has run [S n]
    times: each new run is preceded by the cleanup of the one before. *)
Fixpoint dragEffectRuns (n : nat) : list Listener :=
  match n with
  | O => dragEffectSetup 0 []
  | S k => dragEffectSetup (S k) (dragEffectCleanup k (dragEffectRuns k))
  end.

(** A [click] event on the drawer reaches every [click] listener of the
    drawer element, in the order of registration. *)
Definition dispatchDrawerClick (closeButton : bool) (ls : list Listener)
    (w : World) : World :=
  fold_left
    (fun w l =>
       if target_eqb (listenerTarget l) DrawerElement
          && type_eqb (listenerType l) Click
       then handleClick closeButton w
       else w)
    ls w.

Definition countListeners (t : EventTarget) (e : EventType)
    (ls : list Listener) : nat :=
  List.length (filter (fun l => target_eqb (listenerTarget l) t
                           && type_eqb (listenerType l) e) ls).

(* ------------------------------------------------------------------ *)
(** ** The animation driver, with its timers *)

(** One animation channel of [animate]: the styles and the transition of
    the element, the channel's [timeoutRef], and the host's timers that are
    still pending, each with its id and the time left.  Every timer of the
    channel sets the transition to ["none"]. *)
Record Channel (A : Type) : Type := mkChannel {
  chStyles : A;
  chTransition : Transition;
  chTimeoutRef : option nat;
  chTimers : list (nat * Q);
  chNextTimer : nat
}.
Arguments mkChannel {A} _ _ _ _ _.
Arguments chStyles {A} _.
Arguments chTransition {A} _.
Arguments chTimeoutRef {A} _.
Arguments chTimers {A} _.
Arguments chNextTimer {A} _.

(** A channel on which [animate] has not been called yet. *)
Definition initialChannel {A : Type} (s : A) : Channel A :=
  mkChannel s TransitionNone None [] 1.

(** [animate] on an element that exists. *)
Definition animateChannel {A : Type} (newStyles : A) (duration : Q)
    (c : Channel A) : Channel A :=
  let pending :=
    match chTimeoutRef c with
    | Some id => if Nat.eqb id 0 then chTimers c
                 else clearTimeout id (chTimers c)
    | None => chTimers c
    end in
  mkChannel newStyles (TransitionMs duration) (Some (chNextTimer c))
            ((chNextTimer c, duration) :: pending) (S (chNextTimer c)).

(** [dt] milliseconds pass on a channel. *)
Definition elapseChannel {A : Type} (dt : Q) (c : Channel A) : Channel A :=
  let due := filter (fun t => Qle_bool (snd t) dt) (chTimers c) in
  let rest := filter (fun t => negb (Qle_bool (snd t) dt)) (chTimers c) in
  mkChannel (chStyles c)
            (match due with [] => chTransition c | _ :: _ => TransitionNone end)
            (chTimeoutRef c)
            (map (fun t => (fst t, snd t - dt)) rest)
            (chNextTimer c).

Inductive ChannelEvent (A : Type) : Type :=
| Animate (s : A) (duration : Q)
| Pass (dt : Q).
Arguments Animate {A} _ _.
Arguments Pass {A} _.

Definition channelStep {A : Type} (c : Channel A) (e : ChannelEvent A)
    : Channel A :=
  match e with
  | Animate s d => animateChannel s d c
  | Pass dt => elapseChannel dt c
  end.

Definition runChannel {A : Type} (es : list (ChannelEvent A)) (c : Channel A)
    : Channel A :=
  fold_left channelStep es c.


(** The element and the pending delay a channel shows, as a [Surface]. *)
Definition surfaceOf {A : Type} (c : Channel A) : Surface A :=
  mkSurface (chStyles c) (chTransition c)
            (match chTimers c with
             | [] => None
             | t :: _ => Some (snd t)
             end).

(** What every reachable channel satisfies. *)
Definition ChannelInv {A : Type} (c : Channel A) : Prop :=
  (forall t, In t (chTimers c) ->
             chTimeoutRef c = Some (fst t) /\ fst t <> 0%nat) /\
  chNextTimer c <> 0%nat /\
  (List.length (chTimers c) <= 1)%nat.



(* ------------------------------------------------------------------ *)
(** ** The sample application *)

(** The [-] button: [setContentIterations(Math.max(1, contentIterations - 1))]. *)
Definition decrementIterations (n : Z) : Z := Z.max 1 (n - 1).

(** The [+] button: [setContentIterations(Math.min(10, contentIterations + 1))]. *)
Definition incrementIterations (n : Z) : Z := Z.min 10 (n + 1).

Inductive IterationButton : Type := Minus | Plus.

Definition pressIterationButton (n : Z) (b : IterationButton) : Z :=
  match b with
  | Minus => decrementIterations n
  | Plus => incrementIterations n
  end.

(** [useState(1)]. *)
Definition initialIterations : Z := 1.

Definition pressAll (bs : list IterationButton) (n : Z) : Z :=
  fold_left pressIterationButton bs n.

(** The [click] listeners of the runs [0 .. n-1], oldest first. *)
Definition clickListeners (n : nat) : list Listener :=
  map (mkListener DrawerElement Click) (seq 0 n).

(** The six gesture listeners of run [run]. *)
Definition gestureListeners (run : nat) : list Listener :=
  [ mkListener DrawerElement MouseDown run;
    mkListener DrawerElement TouchStart run;
    mkListener Window MouseMove run;
    mkListener Window TouchMove run;
    mkListener Window MouseUp run;
    mkListener Window TouchEnd run ].

(* ================================================================== *)
(** * Properties *)

(* ------------------------------------------------------------------ *)
(** ** Comparisons and truthiness *)

Lemma Qlt_bool_iff (x y : Q) : Qlt_bool x y = true <-> x < y.
Proof.
  unfold Qlt_bool. rewrite negb_true_iff.
  destruct (Qle_bool y x) eqn:E.
  - apply Qle_bool_iff in E. split; [discriminate | intro H; lra].
  - split; [intros _ | reflexivity].
    destruct (Qlt_le_dec x y) as [H | H]; [exact H |].
    apply Qle_bool_iff in H. congruence.
Qed.

Lemma Qlt_bool_false_iff (x y : Q) : Qlt_bool x y = false <-> y <= x.
Proof.
  unfold Qlt_bool. rewrite negb_false_iff. apply Qle_bool_iff.
Qed.

Lemma Qle_bool_false_iff (x y : Q) : Qle_bool x y = false <-> y < x.
Proof.
  rewrite <- Qlt_bool_iff. unfold Qlt_bool.
  destruct (Qle_bool x y); simpl; split; congruence.
Qed.

Lemma truthy_iff (x : Q) : truthy x = true <-> ~ x == 0.
Proof.
  unfold truthy. rewrite negb_true_iff.
  destruct (Qeq_bool x 0) eqn:E.
  - apply Qeq_bool_iff in E. split; [discriminate | tauto].
  - split; [| reflexivity]. intros _ H. apply Qeq_bool_iff in H. congruence.
Qed.

Lemma truthy_false_iff (x : Q) : truthy x = false <-> x == 0.
Proof.
  unfold truthy. rewrite negb_false_iff. apply Qeq_bool_iff.
Qed.

Lemma or_zero_Some (h : Q) : or_zero (Some h) == h.
Proof.
  unfold or_zero. destruct (truthy h) eqn:E; [reflexivity |].
  apply truthy_false_iff in E. symmetry. exact E.
Qed.

Lemma getPeekOpenTranslateY_Some (r : Render) (h : Q) :
  peekHeight r = Some h -> getPeekOpenTranslateY r == viewportHeight r - h.
Proof.
  intro H. unfold getPeekOpenTranslateY. rewrite H, or_zero_Some. reflexivity.
Qed.

(* ------------------------------------------------------------------ *)
(** ** Position resolver *)

(** C5. The canonical offsets: the closed offset is the viewport height, the
    peek offset is the viewport height less the peek height, the full-open
    offset is the constant 20 in ["100%"] mode and the viewport height less
    the content height otherwise.  With viewport 800 and content 300 the
    open offset is 500 and the closed one 800; with peek height 150 and
    ["100%"] mode the peek offset is 650 and the full offset 20. *)
Theorem canonical_offsets :
  (forall r, getClosedTranslateY r = viewportHeight r) /\
  (forall open h fh vh ch,
      getPeekOpenTranslateY (mkRender open (Some h) fh vh ch) == vh - h) /\
  (forall open ph vh ch,
      getFullOpenTranslateY (mkRender open ph Full100 vh ch) = 20) /\
  (forall open ph vh ch,
      getFullOpenTranslateY (mkRender open ph Auto vh ch) = vh - ch) /\
  (forall open,
      getFullOpenTranslateY (basicRender open) = 500 /\
      getClosedTranslateY (basicRender open) = 800) /\
  (forall open,
      getPeekOpenTranslateY (peekRender open) = 650 /\
      getFullOpenTranslateY (peekRender open) = 20).
Proof.
  repeat split; try reflexivity.
  intros. apply getPeekOpenTranslateY_Some. reflexivity.
Qed.

(** C6, as stated, fails: with viewport 800, content 300 and peek height 500
    the full-open offset (500) lies below the peek offset (300). *)
Lemma offsets_ordering_counterexample :
  truthy_opt (peekHeight invertedRender) = true /\
  ~ (getFullOpenTranslateY invertedRender <= getPeekOpenTranslateY invertedRender
     /\ getPeekOpenTranslateY invertedRender <= getClosedTranslateY invertedRender).
Proof.
  split; [reflexivity |].
  intros [H _]. vm_compute in H. apply H. reflexivity.
Qed.

(** C6, amended.  For a positive peek height the peek offset never exceeds
    the closed offset, and the full-open offset is at most the peek offset
    exactly when the peek height is at most the content height (automatic
    height) or at most the viewport height less 20 (["100%"] mode). *)
Theorem offsets_ordering (r : Render) (h : Q) :
  peekHeight r = Some h ->
  0 < h ->
  getPeekOpenTranslateY r <= getClosedTranslateY r /\
  (getFullOpenTranslateY r <= getPeekOpenTranslateY r <->
   match fullHeight r with
   | Auto => h <= drawerContentHeight r
   | Full100 => h <= viewportHeight r - FULL_HEIGHT_OFFSET
   end).
Proof.
  intros Hp Hh.
  pose proof (getPeekOpenTranslateY_Some r h Hp) as E.
  unfold getClosedTranslateY, getFullOpenTranslateY, FULL_HEIGHT_OFFSET.
  split; [lra |].
  destruct (fullHeight r); split; intro H; lra.
Qed.

Lemma offsets_ordering_witness :
  getPeekOpenTranslateY (peekRender true) <= getClosedTranslateY (peekRender true) /\
  (getFullOpenTranslateY (peekRender true) <= getPeekOpenTranslateY (peekRender true) <->
   150 <= 800 - FULL_HEIGHT_OFFSET).
Proof.
  apply (offsets_ordering (peekRender true) 150); [reflexivity | reflexivity].
Defined.

(* ------------------------------------------------------------------ *)
(** ** Pointer-up *)

Lemma direction_is_Down (ds : DragState) :
  direction_is Down ds = true <-> dragDirection ds = Some Down.
Proof.
  unfold direction_is. destruct (dragDirection ds) as [[|]|]; split; congruence.
Qed.

Lemma direction_is_Up (ds : DragState) :
  direction_is Up ds = true <-> dragDirection ds = Some Up.
Proof.
  unfold direction_is. destruct (dragDirection ds) as [[|]|]; split; congruence.
Qed.

(** Pointer-up never touches the direction: it leaves it as the last
    classified move set it. *)
Lemma handleDragEnd_keeps_direction (r : Render) (w : World) :
  dragDirection (dragState (handleDragEnd r w)) = dragDirection (dragState w).
Proof.
  unfold handleDragEnd.
  repeat match goal with |- context [if ?c then _ else _] => destruct c end;
    reflexivity.
Qed.

Lemma handleDragEnd_not_dragging (r : Render) (w : World) :
  isDragging (dragState (handleDragEnd r w)) = false.
Proof.
  unfold handleDragEnd.
  repeat match goal with |- context [if ?c then _ else _] => destruct c end;
    reflexivity.
Qed.

Lemma handleDragStart_keeps_direction (s : StartEvent) (w : World) :
  dragDirection (dragState (handleDragStart s w)) = dragDirection (dragState w).
Proof. reflexivity. Qed.

(** Pointer-up with direction [down] and no usable peek height calls
    [onClose] once. *)
Lemma handleDragEnd_down_no_peek (r : Render) (w : World) :
  dragDirection (dragState w) = Some Down ->
  truthy_opt (peekHeight r) = false ->
  closeCalls (handleDragEnd r w) = S (closeCalls w).
Proof.
  intros Hd Hp. unfold handleDragEnd.
  assert (E : direction_is Down
                (dragState (setDragState (setIsDragging false (dragState w)) w))
              = true) by (apply direction_is_Down; exact Hd).
  rewrite E, Hp. reflexivity.
Qed.

(** C1. A release whose direction is [down], with a peek height configured
    and the drawer above the peek offset, settles at the peek offset: the
    recorded position and the drawer's transform are set to the viewport
    height less the peek height, with a transition, and [onClose] is not
    called. *)
Theorem release_down_above_peek_settles_at_peek
    (r : Render) (w : World) (h : Q) :
  dragDirection (dragState w) = Some Down ->
  peekHeight r = Some h ->
  ~ h == 0 ->
  translateY (dragState w) < getPeekOpenTranslateY r ->
  translateY (dragState (handleDragEnd r w)) = getPeekOpenTranslateY r /\
  drawer (handleDragEnd r w)
    = mkSurface (getPeekOpenTranslateY r) (TransitionMs DURATION) (Some DURATION) /\
  getPeekOpenTranslateY r == viewportHeight r - h /\
  closeCalls (handleDragEnd r w) = closeCalls w.
Proof.
  intros Hd Hp Hh Hlt.
  assert (E1 : direction_is Down
                 (dragState (setDragState (setIsDragging false (dragState w)) w))
               = true) by (apply direction_is_Down; exact Hd).
  assert (E2 : truthy_opt (peekHeight r) = true)
    by (rewrite Hp; apply truthy_iff; exact Hh).
  assert (E3 : Qlt_bool
                 (translateY
                    (dragState (setDragState (setIsDragging false (dragState w)) w)))
                 (getPeekOpenTranslateY r) = true)
    by (apply Qlt_bool_iff; exact Hlt).
  unfold handleDragEnd. rewrite E1, E2, E3. simpl.
  repeat split. apply getPeekOpenTranslateY_Some. exact Hp.
Qed.

Lemma release_down_above_peek_settles_at_peek_witness :
  translateY (dragState (handleDragEnd (peekRender true) draggedDownWorld))
    = getPeekOpenTranslateY (peekRender true) /\
  drawer (handleDragEnd (peekRender true) draggedDownWorld)
    = mkSurface (getPeekOpenTranslateY (peekRender true))
                (TransitionMs DURATION) (Some DURATION) /\
  getPeekOpenTranslateY (peekRender true) == viewportHeight (peekRender true) - 150 /\
  closeCalls (handleDragEnd (peekRender true) draggedDownWorld)
    = closeCalls draggedDownWorld.
Proof.
  apply (release_down_above_peek_settles_at_peek (peekRender true)
           draggedDownWorld 150).
  - reflexivity.
  - reflexivity.
  - intro H. vm_compute in H. discriminate.
  - vm_compute. reflexivity.
Defined.

(* ------------------------------------------------------------------ *)
(** ** Escape *)

(** C10. The Escape listener does not look at [isOpen]: every Escape keydown
    calls [onClose], also on a drawer that is closed. *)
Theorem escape_always_calls_onClose :
  (forall r w, closeCalls (drawerKeydown r "Escape" w) = S (closeCalls w)) /\
  (forall ph fh vh ch w,
      closeCalls (drawerKeydown (mkRender false ph fh vh ch) "Escape" w)
      = S (closeCalls w)) /\
  (forall r,
      closeCalls (drawerKeydown r "Escape"
                    (drawerKeydown r "Escape" (initialWorld r))) = 2%nat).
Proof.
  repeat split.
Qed.

(* ------------------------------------------------------------------ *)
(** ** Pointer-move *)

(** A move outside a drag does nothing. *)
Lemma handleDragMove_idle (r : Render) (e : MoveEvent) (w : World) :
  isDragging (dragState w) = false -> handleDragMove r e w = w.
Proof.
  intro H. unfold handleDragMove. rewrite H. reflexivity.
Qed.

(** The handler during a drag, with the proposed position named. *)
Lemma handleDragMove_dragging (r : Render) (e : MoveEvent) (w : World) :
  isDragging (dragState w) = true ->
  handleDragMove r e w =
  let y := proposedTranslateY e (dragState w) in
  let w1 := writeTranslateY y w in
  if Qle_bool (rectHeight e) (innerHeight e - y) then w1
  else
    let w2 := setDrawer (mkSurface y (transition (drawer w))
                                   (pendingClear (drawer w))) w1 in
    if Qlt_bool (Qabs (clientY e - dragStartY (dragState w))) 15 then w2
    else
      let w3 :=
        if Qlt_bool y (translateY (dragState w)) then
          setDragState (setDragDirection (Some Up) (dragState w2)) w2
        else if Qlt_bool (translateY (dragState w)) y then
          setDragState (setDragDirection (Some Down) (dragState w2)) w2
        else w2 in
      match overlay w3 with
      | Some o =>
          setOverlay (Some (mkSurface (dragOpacity r (rectHeight e) y)
                                      (transition o) (pendingClear o))) w3
      | None => w3
      end.
Proof.
  intro Hd. unfold handleDragMove. rewrite Hd. reflexivity.
Qed.

Ltac split_move :=
  repeat match goal with
         | |- context [if ?c then _ else _] => destruct c
         | |- context [match overlay ?x with _ => _ end] => destruct (overlay x)
         end.

(** A move during a drag that the overshoot guard rejects. *)
Lemma handleDragMove_rejected (r : Render) (e : MoveEvent) (w : World) :
  isDragging (dragState w) = true ->
  rectHeight e <= innerHeight e - proposedTranslateY e (dragState w) ->
  handleDragMove r e w = writeTranslateY (proposedTranslateY e (dragState w)) w.
Proof.
  intros Hd Hg. rewrite (handleDragMove_dragging r e w Hd). cbv zeta.
  apply Qle_bool_iff in Hg. rewrite Hg. reflexivity.
Qed.

(** What a move leaves alone, whatever its outcome. *)
Lemma handleDragMove_frame (r : Render) (e : MoveEvent) (w : World) :
  isDragging (dragState (handleDragMove r e w)) = isDragging (dragState w) /\
  dragStartY (dragState (handleDragMove r e w)) = dragStartY (dragState w) /\
  initialYOffset (dragState (handleDragMove r e w)) = initialYOffset (dragState w) /\
  closeCalls (handleDragMove r e w) = closeCalls w.
Proof.
  destruct (isDragging (dragState w)) eqn:Hd.
  - rewrite (handleDragMove_dragging r e w Hd). cbv zeta.
    split_move; repeat split; exact Hd.
  - rewrite (handleDragMove_idle r e w Hd). repeat split. exact Hd.
Qed.

(** During a drag every move records the position it proposes. *)
Lemma handleDragMove_records (r : Render) (e : MoveEvent) (w : World) :
  isDragging (dragState w) = true ->
  translateY (dragState (handleDragMove r e w))
  = proposedTranslateY e (dragState w).
Proof.
  intro Hd. rewrite (handleDragMove_dragging r e w Hd). cbv zeta.
  split_move; reflexivity.
Qed.

(** A move during a drag that passes the guard, of at least 15 pixels from
    the start, that proposes a position below the recorded one: the
    direction becomes [down]. *)
Lemma handleDragMove_classifies_down (r : Render) (e : MoveEvent) (w : World) :
  isDragging (dragState w) = true ->
  innerHeight e - proposedTranslateY e (dragState w) < rectHeight e ->
  15 <= Qabs (clientY e - dragStartY (dragState w)) ->
  translateY (dragState w) < proposedTranslateY e (dragState w) ->
  dragDirection (dragState (handleDragMove r e w)) = Some Down.
Proof.
  intros Hd Hg Hdiff Hlt. rewrite (handleDragMove_dragging r e w Hd). cbv zeta.
  apply Qle_bool_false_iff in Hg. rewrite Hg.
  apply Qlt_bool_false_iff in Hdiff. rewrite Hdiff.
  assert (E1 : Qlt_bool (proposedTranslateY e (dragState w))
                        (translateY (dragState w)) = false)
    by (apply Qlt_bool_false_iff; lra).
  apply Qlt_bool_iff in Hlt.
  rewrite E1, Hlt.
  split_move; reflexivity.
Qed.

(** The overlay after a move during a drag that passes the guard, of at
    least 15 pixels from the start. *)
Lemma handleDragMove_overlay (r : Render) (e : MoveEvent) (w : World)
    (o : Surface JsNum) :
  isDragging (dragState w) = true ->
  innerHeight e - proposedTranslateY e (dragState w) < rectHeight e ->
  15 <= Qabs (clientY e - dragStartY (dragState w)) ->
  overlay w = Some o ->
  overlay (handleDragMove r e w)
  = Some (mkSurface (dragOpacity r (rectHeight e)
                       (proposedTranslateY e (dragState w)))
                    (transition o) (pendingClear o)).
Proof.
  intros Hd Hg Hdiff Ho. rewrite (handleDragMove_dragging r e w Hd). cbv zeta.
  apply Qle_bool_false_iff in Hg. rewrite Hg.
  apply Qlt_bool_false_iff in Hdiff. rewrite Hdiff.
  destruct (Qlt_bool (proposedTranslateY e (dragState w)) (translateY (dragState w)));
    [| destruct (Qlt_bool (translateY (dragState w)) (proposedTranslateY e (dragState w)))];
    match goal with
    | |- context [match overlay ?x with _ => _ end] =>
        change (overlay x) with (overlay w)
    end; rewrite Ho; reflexivity.
Qed.

(** C7, as stated, fails: a move that would show 350 pixels of a drawer 300
    pixels high is not a no-op, the drag state records the position it
    proposed. *)
Lemma rejected_move_counterexample :
  isDragging (dragState grabbedBasicWorld) = true /\
  rectHeight (mkMoveEvent 550 800 300)
    < innerHeight (mkMoveEvent 550 800 300)
      - proposedTranslateY (mkMoveEvent 550 800 300) (dragState grabbedBasicWorld) /\
  translateY (dragState grabbedBasicWorld) = 500 /\
  translateY (dragState (handleDragMove (basicRender true)
                           (mkMoveEvent 550 800 300) grabbedBasicWorld)) = 450 /\
  handleDragMove (basicRender true) (mkMoveEvent 550 800 300) grabbedBasicWorld
    <> grabbedBasicWorld.
Proof.
  repeat split.
  intro H.
  apply (f_equal (fun w => Qnum (translateY (dragState w)))) in H.
  vm_compute in H. discriminate.
Qed.

(** C7, amended.  A move during a drag that would show at least as much of
    the drawer as its rendered height writes nothing on the screen: the
    drawer's transform and transition, the overlay, the direction and every
    other field of the drag state stay as they were; only the recorded
    position takes the proposed value. *)
Theorem rejected_move_keeps_transform (r : Render) (e : MoveEvent) (w : World) :
  isDragging (dragState w) = true ->
  rectHeight e <= innerHeight e - proposedTranslateY e (dragState w) ->
  handleDragMove r e w = writeTranslateY (proposedTranslateY e (dragState w)) w /\
  drawer (handleDragMove r e w) = drawer w /\
  overlay (handleDragMove r e w) = overlay w /\
  dragDirection (dragState (handleDragMove r e w)) = dragDirection (dragState w) /\
  translateY (dragState (handleDragMove r e w)) = proposedTranslateY e (dragState w).
Proof.
  intros Hd Hg.
  rewrite (handleDragMove_rejected r e w Hd Hg).
  repeat split.
Qed.

Lemma rejected_move_keeps_transform_witness :
  handleDragMove (basicRender true) (mkMoveEvent 550 800 300) grabbedBasicWorld
    = writeTranslateY 450 grabbedBasicWorld /\
  drawer (handleDragMove (basicRender true) (mkMoveEvent 550 800 300) grabbedBasicWorld)
    = drawer grabbedBasicWorld /\
  overlay (handleDragMove (basicRender true) (mkMoveEvent 550 800 300) grabbedBasicWorld)
    = overlay grabbedBasicWorld /\
  dragDirection (dragState (handleDragMove (basicRender true)
                              (mkMoveEvent 550 800 300) grabbedBasicWorld))
    = dragDirection (dragState grabbedBasicWorld) /\
  translateY (dragState (handleDragMove (basicRender true)
                           (mkMoveEvent 550 800 300) grabbedBasicWorld))
    = 450.
Proof.
  apply (rejected_move_keeps_transform (basicRender true)
           (mkMoveEvent 550 800 300) grabbedBasicWorld).
  - reflexivity.
  - vm_compute. discriminate.
Defined.

(* ------------------------------------------------------------------ *)
(** ** Overlay opacity during a drag *)

Lemma linearOpacity_ends (t b : Q) :
  t < b -> linearOpacity t b t == 1 /\ linearOpacity t b b == 0.
Proof.
  intro H. unfold linearOpacity. split; field; lra.
Qed.

(** The threshold of the code is the one the specification names. *)
Lemma bottomThreshold_openThreshold (r : Render) (drawerHeight : Q) :
  bottomThreshold r drawerHeight == openThreshold r drawerHeight.
Proof.
  unfold bottomThreshold, openThreshold, getPeekOpenTranslateY, truthy_opt, or_zero.
  destruct (peekHeight r) as [p |]; [| reflexivity].
  destruct (truthy p); reflexivity.
Qed.

(** With the threshold above the bottom, the opacity is a finite number: the
    line, floored at 0. *)
Lemma dragOpacity_finite (r : Render) (drawerHeight y : Q) :
  bottomThreshold r drawerHeight < viewportHeight r ->
  dragOpacity r drawerHeight y
  = if Qlt_bool (linearOpacity (bottomThreshold r drawerHeight)
                               (viewportHeight r) y) 0
    then Fin 0
    else Fin (linearOpacity (bottomThreshold r drawerHeight) (viewportHeight r) y).
Proof.
  intro H. unfold dragOpacity, js_div.
  assert (E : Qeq_bool (viewportHeight r - bottomThreshold r drawerHeight) 0 = false).
  { destruct (Qeq_bool (viewportHeight r - bottomThreshold r drawerHeight) 0) eqn:E;
      [| reflexivity].
    apply Qeq_bool_iff in E. lra. }
  rewrite E. reflexivity.
Qed.

Lemma linearOpacity_le_1 (t b y : Q) :
  t < b -> t <= y -> linearOpacity t b y <= 1.
Proof.
  intros Hb Hy. unfold linearOpacity.
  assert (0 <= (y - t) / (b - t)) by (apply Qle_shift_div_l; lra).
  lra.
Qed.

(** C8, as stated, fails twice on the peek drawer (viewport 800, peek offset
    650) grabbed at its peek offset.  A move 250 pixels up updates the
    drawer's position to 400 and writes the opacity 8/3, which is above 1.
    A move 10 pixels down updates the drawer's position from 650 to 660 and
    leaves the overlay's opacity as it was. *)
Lemma drag_opacity_counterexample :
  (styles (drawer (handleDragMove (peekRender true) (mkMoveEvent 450 800 780)
                     grabbedPeekWorld)) = 400 /\
   option_map styles
     (overlay (handleDragMove (peekRender true) (mkMoveEvent 450 800 780)
                 grabbedPeekWorld)) = Some (Fin (400 # 150)) /\
   ~ in_unit_interval (Fin (400 # 150))) /\
  (styles (drawer grabbedPeekWorld) = 650 /\
   styles (drawer (handleDragMove (peekRender true) (mkMoveEvent 710 800 780)
                     grabbedPeekWorld)) = 660 /\
   overlay (handleDragMove (peekRender true) (mkMoveEvent 710 800 780)
              grabbedPeekWorld) = overlay grabbedPeekWorld /\
   ~ linearOpacity 650 800 660 == 1).
Proof.
  repeat split.
  - intros [_ H]. vm_compute in H. apply H. reflexivity.
  - intro H. vm_compute in H. discriminate.
Qed.

(** C8, amended.  A move during a drag that updates the drawer's position
    and lies at least 15 pixels from the drag start, with the overlay
    mounted and the open threshold (the peek offset when a peek height is
    configured, otherwise the viewport height less the rendered height)
    above the viewport bottom, writes on the overlay the linear
    interpolation between 1 at the threshold and 0 at the viewport bottom,
    floored at 0.  The value written is never negative, and it is at most 1
    when the new position is at or below the threshold. *)
Theorem drag_move_overlay_opacity (r : Render) (e : MoveEvent) (w : World)
    (o : Surface JsNum) :
  isDragging (dragState w) = true ->
  innerHeight e - proposedTranslateY e (dragState w) < rectHeight e ->
  15 <= Qabs (clientY e - dragStartY (dragState w)) ->
  overlay w = Some o ->
  openThreshold r (rectHeight e) < viewportHeight r ->
  linearOpacity (openThreshold r (rectHeight e)) (viewportHeight r)
                (openThreshold r (rectHeight e)) == 1 /\
  linearOpacity (openThreshold r (rectHeight e)) (viewportHeight r)
                (viewportHeight r) == 0 /\
  exists v : Q,
    option_map styles (overlay (handleDragMove r e w)) = Some (Fin v) /\
    (0 <= linearOpacity (openThreshold r (rectHeight e)) (viewportHeight r)
                        (proposedTranslateY e (dragState w)) ->
     v == linearOpacity (openThreshold r (rectHeight e)) (viewportHeight r)
                        (proposedTranslateY e (dragState w))) /\
    (linearOpacity (openThreshold r (rectHeight e)) (viewportHeight r)
                   (proposedTranslateY e (dragState w)) <= 0 ->
     v == 0) /\
    0 <= v /\
    (openThreshold r (rectHeight e) <= proposedTranslateY e (dragState w) ->
     v <= 1).
Proof.
  intros Hd Hg Hdiff Ho Ht.
  pose proof (bottomThreshold_openThreshold r (rectHeight e)) as Eth.
  assert (Hb : bottomThreshold r (rectHeight e) < viewportHeight r) by lra.
  destruct (linearOpacity_ends _ _ Ht) as [L1 L0].
  split; [exact L1 |]. split; [exact L0 |].
  rewrite (handleDragMove_overlay r e w o Hd Hg Hdiff Ho). simpl.
  rewrite (dragOpacity_finite r _ _ Hb).
  set (y := proposedTranslateY e (dragState w)).
  assert (El : linearOpacity (bottomThreshold r (rectHeight e)) (viewportHeight r) y
               == linearOpacity (openThreshold r (rectHeight e)) (viewportHeight r) y).
  { unfold linearOpacity. rewrite Eth. reflexivity. }
  destruct (Qlt_bool (linearOpacity (bottomThreshold r (rectHeight e))
                                    (viewportHeight r) y) 0) eqn:E.
  - apply Qlt_bool_iff in E. exists 0. repeat split; intros; lra.
  - apply Qlt_bool_false_iff in E.
    exists (linearOpacity (bottomThreshold r (rectHeight e)) (viewportHeight r) y).
    repeat split; intros; try lra.
    rewrite El. apply linearOpacity_le_1; assumption.
Qed.

Lemma drag_move_overlay_opacity_witness :
  linearOpacity 650 800 650 == 1 /\
  linearOpacity 650 800 800 == 0 /\
  exists v : Q,
    option_map styles
      (overlay (handleDragMove (peekRender true) (mkMoveEvent 750 800 780)
                  grabbedPeekWorld)) = Some (Fin v) /\
    (0 <= linearOpacity 650 800 700 -> v == linearOpacity 650 800 700) /\
    (linearOpacity 650 800 700 <= 0 -> v == 0) /\
    0 <= v /\
    (650 <= 700 -> v <= 1).
Proof.
  apply (drag_move_overlay_opacity (peekRender true) (mkMoveEvent 750 800 780)
           grabbedPeekWorld (mkSurface (Fin 1) (TransitionMs DURATION) (Some DURATION))).
  - reflexivity.
  - vm_compute. reflexivity.
  - vm_compute. discriminate.
  - reflexivity.
  - vm_compute. reflexivity.
Defined.

(* ------------------------------------------------------------------ *)
(** ** Whole gestures *)

Lemma runMoves_snoc (r : Render) (ms : list MoveEvent) (m : MoveEvent) (w : World) :
  runMoves r (ms ++ [m]) w = handleDragMove r m (runMoves r ms w).
Proof.
  unfold runMoves. rewrite fold_left_app. reflexivity.
Qed.

(** The moves of a gesture leave the grab point, the dragging flag and the
    count of [onClose] calls as pointer-down set them. *)
Lemma runMoves_frame (r : Render) (ms : list MoveEvent) :
  forall w,
    isDragging (dragState (runMoves r ms w)) = isDragging (dragState w) /\
    dragStartY (dragState (runMoves r ms w)) = dragStartY (dragState w) /\
    initialYOffset (dragState (runMoves r ms w)) = initialYOffset (dragState w) /\
    closeCalls (runMoves r ms w) = closeCalls w.
Proof.
  induction ms as [| m ms IH]; intro w; [repeat split |].
  change (runMoves r (m :: ms) w) with (runMoves r ms (handleDragMove r m w)).
  destruct (IH (handleDragMove r m w)) as (A & B & C & D).
  destruct (handleDragMove_frame r m w) as (A' & B' & C' & D').
  repeat split; congruence.
Qed.

Lemma proposedTranslateY_runMoves (r : Render) (ms : list MoveEvent)
    (m : MoveEvent) (w : World) :
  proposedTranslateY m (dragState (runMoves r ms w))
  = proposedTranslateY m (dragState w).
Proof.
  destruct (runMoves_frame r ms w) as (_ & B & C & _).
  unfold proposedTranslateY. rewrite B, C. reflexivity.
Qed.

(** After the last move of a gesture with at least one move, the recorded
    position is the one that move proposed. *)
Lemma runMoves_records_last (r : Render) (ms : list MoveEvent) (m : MoveEvent)
    (w : World) :
  isDragging (dragState w) = true ->
  translateY (dragState (runMoves r (ms ++ [m]) w))
  = proposedTranslateY m (dragState w).
Proof.
  intro Hd. rewrite runMoves_snoc.
  rewrite handleDragMove_records.
  - apply proposedTranslateY_runMoves.
  - destruct (runMoves_frame r ms w) as (A & _). congruence.
Qed.

(** C2, as stated, fails: the basic drawer (no peek height) is dragged 100
    pixels down and then 50 pixels back up.  The pointer is released 50
    pixels below the drag start, the direction is [up], and the drawer
    settles at its open offset without a call of [onClose]. *)
Lemma net_downward_displacement_counterexample :
  truthy_opt (peekHeight (basicRender true)) = false /\
  15 < clientY (mkMoveEvent 650 800 300) - startClientY (mkStartEvent 600 500) /\
  closeCalls (dragSequence (basicRender true) (mkStartEvent 600 500)
                [mkMoveEvent 700 800 300; mkMoveEvent 650 800 300]
                (openedWorld (basicRender true)))
    = closeCalls (openedWorld (basicRender true)) /\
  dragDirection (dragState
                   (dragSequence (basicRender true) (mkStartEvent 600 500)
                      [mkMoveEvent 700 800 300; mkMoveEvent 650 800 300]
                      (openedWorld (basicRender true)))) = Some Up /\
  styles (drawer (dragSequence (basicRender true) (mkStartEvent 600 500)
                    [mkMoveEvent 700 800 300; mkMoveEvent 650 800 300]
                    (openedWorld (basicRender true)))) = 500.
Proof.
  repeat split.
Qed.

(** The moves of a gesture whose last move lies at least 15 pixels below the
    drag start, passes the guard and proposes a position below the recorded
    one: the gesture reaches pointer-up with direction [down] and the count
    of [onClose] calls untouched. *)
Lemma runMoves_last_move_down
    (r : Render) (s : StartEvent) (ms : list MoveEvent) (m : MoveEvent)
    (w : World) :
  15 <= clientY m - startClientY s ->
  innerHeight m - proposedTranslateY m (dragState (handleDragStart s w))
    < rectHeight m ->
  translateY (dragState (runMoves r ms (handleDragStart s w)))
    < proposedTranslateY m (dragState (handleDragStart s w)) ->
  dragDirection (dragState (runMoves r (ms ++ [m]) (handleDragStart s w)))
    = Some Down /\
  closeCalls (runMoves r (ms ++ [m]) (handleDragStart s w)) = closeCalls w.
Proof.
  intros Hdiff Hg Hlt.
  rewrite runMoves_snoc.
  set (w0 := handleDragStart s w) in *.
  set (w1 := runMoves r ms w0) in *.
  destruct (runMoves_frame r ms w0) as (A & B & _ & D). fold w1 in A, B, D.
  pose proof (proposedTranslateY_runMoves r ms m w0) as P. fold w1 in P.
  split.
  - apply handleDragMove_classifies_down.
    + rewrite A. reflexivity.
    + rewrite P. exact Hg.
    + rewrite B. change (dragStartY (dragState w0)) with (startClientY s).
      apply Qabs_ge. exact Hdiff.
    + rewrite P. exact Hlt.
  - destruct (handleDragMove_frame r m w1) as (_ & _ & _ & D').
    rewrite D', D. reflexivity.
Qed.

(** C2, amended.  With no peek height configured, a gesture whose last
    pointer-move lies at least 15 pixels below the drag start, passes the
    overshoot guard and proposes a position below the one recorded before it
    (the drawer's last motion is downward) ends with one call of [onClose]
    at pointer-up. *)
Theorem release_after_downward_move_closes
    (r : Render) (s : StartEvent) (ms : list MoveEvent) (m : MoveEvent)
    (w : World) :
  truthy_opt (peekHeight r) = false ->
  15 <= clientY m - startClientY s ->
  innerHeight m - proposedTranslateY m (dragState (handleDragStart s w))
    < rectHeight m ->
  translateY (dragState (runMoves r ms (handleDragStart s w)))
    < proposedTranslateY m (dragState (handleDragStart s w)) ->
  closeCalls (dragSequence r s (ms ++ [m]) w) = S (closeCalls w).
Proof.
  intros Hp Hdiff Hg Hlt.
  destruct (runMoves_last_move_down r s ms m w Hdiff Hg Hlt) as [Hdown Hcalls].
  unfold dragSequence.
  rewrite (handleDragEnd_down_no_peek r _ Hdown Hp).
  rewrite Hcalls. reflexivity.
Qed.

Lemma release_after_downward_move_closes_witness :
  closeCalls (dragSequence (basicRender true) (mkStartEvent 600 500)
                ([mkMoveEvent 610 800 300] ++ [mkMoveEvent 700 800 300])
                (openedWorld (basicRender true)))
  = S (closeCalls (openedWorld (basicRender true))).
Proof.
  apply (release_after_downward_move_closes (basicRender true)
           (mkStartEvent 600 500) [mkMoveEvent 610 800 300]
           (mkMoveEvent 700 800 300) (openedWorld (basicRender true))).
  - reflexivity.
  - vm_compute. discriminate.
  - vm_compute. reflexivity.
  - vm_compute. reflexivity.
Defined.

(** The same, read off the pointer: when the gesture has at least two moves
    it is enough that the last one lies below the one before it. *)
Lemma release_after_pointer_moving_down_closes
    (r : Render) (s : StartEvent) (ms : list MoveEvent) (mp m : MoveEvent)
    (w : World) :
  truthy_opt (peekHeight r) = false ->
  15 <= clientY m - startClientY s ->
  innerHeight m - proposedTranslateY m (dragState (handleDragStart s w))
    < rectHeight m ->
  clientY mp < clientY m ->
  closeCalls (dragSequence r s ((ms ++ [mp]) ++ [m]) w) = S (closeCalls w).
Proof.
  intros Hp Hdiff Hg Hlt.
  destruct (runMoves_last_move_down r s (ms ++ [mp]) m w Hdiff Hg) as [Hdown Hcalls].
  - rewrite runMoves_records_last by reflexivity.
    unfold proposedTranslateY. lra.
  - unfold dragSequence.
    rewrite (handleDragEnd_down_no_peek r _ Hdown Hp).
    rewrite Hcalls. reflexivity.
Qed.

(* ------------------------------------------------------------------ *)
(** ** The direction across gestures *)

Lemma handleDragMove_direction_stays (r : Render) (e : MoveEvent) (w : World) :
  dragDirection (dragState w) <> None ->
  dragDirection (dragState (handleDragMove r e w)) <> None.
Proof.
  intro H.
  destruct (isDragging (dragState w)) eqn:Hd.
  - rewrite (handleDragMove_dragging r e w Hd). cbv zeta.
    split_move; try exact H; discriminate.
  - rewrite (handleDragMove_idle r e w Hd). exact H.
Qed.

Lemma runMoves_direction_stays (r : Render) (ms : list MoveEvent) :
  forall w,
    dragDirection (dragState w) <> None ->
    dragDirection (dragState (runMoves r ms w)) <> None.
Proof.
  induction ms as [| m ms IH]; intros w H; [exact H |].
  change (runMoves r (m :: ms) w) with (runMoves r ms (handleDragMove r m w)).
  apply IH. apply handleDragMove_direction_stays. exact H.
Qed.

(** No handler writes [null] to the direction: once a move has been
    classified, every later gesture ends with a direction. *)
Lemma direction_never_reset (r : Render) (s : StartEvent) (ms : list MoveEvent)
    (w : World) :
  dragDirection (dragState w) <> None ->
  dragDirection (dragState (dragSequence r s ms w)) <> None.
Proof.
  intro H. unfold dragSequence.
  rewrite handleDragEnd_keeps_direction.
  apply runMoves_direction_stays.
  rewrite handleDragStart_keeps_direction. exact H.
Qed.

(** A full click leaves the direction as it found it. *)
Lemma click_keeps_direction (r : Render) (s : StartEvent) (w : World) :
  dragDirection (dragState (click r s w)) = dragDirection (dragState w).
Proof.
  unfold click, dragSequence. rewrite handleDragEnd_keeps_direction. reflexivity.
Qed.

(** C4, on the code.  The peek drawer (viewport 800, peek height 150, full
    height ["100%"]) is dragged down from its full-open offset and released:
    it settles at its peek offset 650, [isDragging] is false, and the
    direction is still [down].  A full click that follows carries that
    direction and calls [onClose], where the distance-based snap would have
    left the drawer at 650. *)
Theorem click_after_drag_carries_direction :
  isDragging (dragState settledAtPeekWorld) = false /\
  styles (drawer settledAtPeekWorld) = 650 /\
  closeCalls settledAtPeekWorld = 0%nat /\
  dragDirection (dragState settledAtPeekWorld) = Some Down /\
  dragDirection (dragState (handleDragStart (mkStartEvent 700 650)
                              settledAtPeekWorld)) = Some Down /\
  closeCalls (click (peekRender true) (mkStartEvent 700 650) settledAtPeekWorld)
    = 1%nat /\
  snapTarget (peekRender true) (translateY (dragState settledAtPeekWorld)) = 650.
Proof.
  repeat split.
Qed.

(* ------------------------------------------------------------------ *)
(** ** The distance-based snap *)


Lemma snapTarget_no_peek (r : Render) (y : Q) :
  truthy_opt (peekHeight r) = false ->
  snapTarget r y = getFullOpenTranslateY r.
Proof.
  intro H. unfold snapTarget. rewrite H. reflexivity.
Qed.


(** C3, on the code.  With a peek height equal to the viewport height (800,
    full height ["100%"]) the peek offset is 0 and the full-open offset 20.
    The drawer is opened, rests at 0 with no direction, and is tapped: 0 is
    nearer to the peek offset than to the full-open offset, and the drawer
    is animated to 20. *)
Theorem tap_at_zero_peek_offset_goes_full :
  truthy_opt (peekHeight (tallPeekRender true)) = true /\
  getPeekOpenTranslateY (tallPeekRender true) = 0 /\
  getFullOpenTranslateY (tallPeekRender true) = 20 /\
  dragDirection (dragState (openedWorld (tallPeekRender true))) = None /\
  translateY (dragState (openedWorld (tallPeekRender true))) = 0 /\
  Qabs (0 - getPeekOpenTranslateY (tallPeekRender true))
    < Qabs (0 - getFullOpenTranslateY (tallPeekRender true)) /\
  translateY (dragState (click (tallPeekRender true) (mkStartEvent 100 0)
                           (openedWorld (tallPeekRender true)))) = 20 /\
  styles (drawer (click (tallPeekRender true) (mkStartEvent 100 0)
                    (openedWorld (tallPeekRender true)))) = 20.
Proof.
  repeat split.
Qed.

(* ------------------------------------------------------------------ *)
(** ** AnimatedRender *)

Section AnimatedRender.

Variable duration : Q.

Lemma clearTimeout_same (id : nat) (ts : list (nat * Q)) :
  (forall t, In t ts -> fst t = id) -> clearTimeout id ts = [].
Proof.
  induction ts as [| t ts IH]; intro H; [reflexivity |].
  simpl. rewrite (H t (or_introl eq_refl)), Nat.eqb_refl. simpl.
  apply IH. intros t' Ht'. apply H. right. exact Ht'.
Qed.

(** When every pending timer is the one the ref names, the cleanup leaves
    no timer pending. *)
Lemma clearPending_timers (m : Mounting) :
  (forall t, In t (timers m) -> timeoutRef m = Some (fst t) /\ fst t <> 0%nat) ->
  timers (clearPending m) = [].
Proof.
  intro H. unfold clearPending.
  destruct (timeoutRef m) as [id |] eqn:Er.
  - destruct (Nat.eqb id 0) eqn:Ez.
    + destruct (timers m) as [| t ts] eqn:Et; [reflexivity |].
      destruct (H t (or_introl eq_refl)) as [Hr Hz].
      apply Nat.eqb_eq in Ez. congruence.
    + simpl. apply clearTimeout_same.
      intros t Ht. destruct (H t Ht) as [Hr _]. congruence.
  - destruct (timers m) as [| t ts] eqn:Et; [reflexivity |].
    destruct (H t (or_introl eq_refl)) as [Hr _]. congruence.
Qed.

Lemma clearPending_frame (m : Mounting) :
  showing (clearPending m) = showing m /\
  isMounted (clearPending m) = isMounted m /\
  timeoutRef (clearPending m) = timeoutRef m /\
  nextTimer (clearPending m) = nextTimer m.
Proof.
  unfold clearPending.
  destruct (timeoutRef m) as [id |] eqn:E; [| rewrite E; auto].
  destruct (Nat.eqb id 0); simpl; rewrite ?E; auto.
Qed.

Lemma clearPending_idempotent (m : Mounting) :
  timers m = [] -> clearPending m = m.
Proof.
  intro H. destruct m as [sh mo ref ts nx]. simpl in H. subst ts.
  unfold clearPending. simpl.
  destruct ref as [id |]; [| reflexivity].
  destruct (Nat.eqb id 0); reflexivity.
Qed.

Lemma mount_inv (s : bool) : MountingInv (mount duration s).
Proof.
  destruct s; repeat split; simpl; intros;
    try contradiction; try discriminate.
Qed.

(** The state after the cleanup and the effect of a close request on a
    mounted instance. *)
Lemma setShowing_false_from_shown (m : Mounting) :
  MountingInv m -> showing m = true ->
  setShowing duration false m
  = mkMounting false true (Some (nextTimer m)) [(nextTimer m, duration)]
               (S (nextTimer m)).
Proof.
  intros (Ht & Hn & Hs) Hsh. destruct (Hs Hsh) as [Hm Hts].
  unfold setShowing. rewrite Hsh. simpl.
  unfold effectCleanup.
  rewrite (clearPending_idempotent
             (mkMounting false (isMounted m) (timeoutRef m) (timers m) (nextTimer m)))
    by exact Hts.
  unfold effectBody. simpl. rewrite Hm.
  rewrite (clearPending_idempotent
             (mkMounting false true (timeoutRef m) (timers m) (nextTimer m)))
    by exact Hts.
  simpl. rewrite Hts. reflexivity.
Qed.

(** An open instance that is asked to close keeps its content and starts
    the timer. *)
Lemma setShowing_false_closing (m : Mounting) :
  MountingInv m -> showing m = true ->
  Closing duration (setShowing duration false m).
Proof.
  intros Hi Hsh. rewrite (setShowing_false_from_shown m Hi Hsh).
  destruct Hi as (_ & Hn & _).
  split; [reflexivity |]. split; [reflexivity |].
  exists (nextTimer m), duration.
  split; [reflexivity |]. split; [reflexivity |]. split; [reflexivity | exact Hn].
Qed.

Lemma setShowing_inv (b : bool) (m : Mounting) :
  MountingInv m -> MountingInv (setShowing duration b m).
Proof.
  intro Hi.
  destruct (Bool.eqb b (showing m)) eqn:E.
  - unfold setShowing. rewrite E. exact Hi.
  - destruct b, (showing m) eqn:Hsh; try discriminate.
    + (* open request on a closed instance *)
      destruct Hi as (Ht & Hn & _).
      unfold setShowing. rewrite Hsh. simpl. unfold effectCleanup, effectBody.
      set (m0 := mkMounting true (isMounted m) (timeoutRef m) (timers m)
                            (nextTimer m)).
      destruct (clearPending_frame m0) as (A & _ & _ & D).
      rewrite A. simpl.
      assert (Hc : timers (clearPending m0) = [])
        by (apply clearPending_timers; exact Ht).
      unfold MountingInv. simpl. rewrite Hc, D.
      split; [intros t [] |]. split; [exact Hn |].
      intros _. split; reflexivity.
    + (* close request on an open instance *)
      rewrite (setShowing_false_from_shown m Hi Hsh).
      destruct Hi as (_ & Hn & _).
      unfold MountingInv. simpl.
      split; [| split; [discriminate | discriminate]].
      intros t [<- | []]. simpl. split; [reflexivity | exact Hn].
Qed.

Lemma elapse_inv (dt : Q) (m : Mounting) :
  MountingInv m -> MountingInv (elapse dt m).
Proof.
  intros (Ht & Hn & Hs). unfold MountingInv. simpl.
  split; [| split; [exact Hn |]].
  - intros t Hin. apply in_map_iff in Hin. destruct Hin as (t' & <- & Hin).
    apply filter_In in Hin. apply (Ht t'). tauto.
  - intro H. destruct (Hs H) as [Hm Hts]. rewrite Hts. simpl. auto.
Qed.

(** Every state an instance can reach satisfies the invariant. *)
Lemma runMounting_inv (es : list MountEvent) :
  forall m, MountingInv m -> MountingInv (runMounting duration es m).
Proof.
  induction es as [| e es IH]; intros m Hi; [exact Hi |].
  simpl. apply IH. destruct e; [apply setShowing_inv | apply elapse_inv]; exact Hi.
Qed.

Lemma Closing_proper (rem rem' : Q) (m : Mounting) :
  rem == rem' -> Closing rem m -> Closing rem' m.
Proof.
  intros E (A & B & id & r & C & D & F).
  split; [exact A |]. split; [exact B |].
  exists id, r. split; [exact C |]. split; [| exact F].
  rewrite D. exact E.
Qed.

(** Before the timer is due the content stays. *)
Lemma elapse_closing_before (rem dt : Q) (m : Mounting) :
  Closing rem m -> dt < rem -> Closing (rem - dt) (elapse dt m).
Proof.
  intros (A & B & id & r & C & D & F & G) Hlt.
  assert (E : Qle_bool r dt = false) by (apply Qle_bool_false_iff; lra).
  unfold elapse. rewrite C. simpl. rewrite E. simpl.
  split; [exact A |]. split; [exact B |].
  exists id, (r - dt).
  split; [reflexivity |]. split; [lra |]. split; assumption.
Qed.

(** When the timer is due the content is detached. *)
Lemma elapse_closing_after (rem dt : Q) (m : Mounting) :
  Closing rem m -> rem <= dt -> Unmounted (elapse dt m).
Proof.
  intros (A & B & id & r & C & D & F & G) Hle.
  assert (E : Qle_bool r dt = true) by (apply Qle_bool_iff; lra).
  unfold elapse. rewrite C. simpl. rewrite E. simpl.
  split; [exact A |]. split; reflexivity.
Qed.

Lemma elapse_unmounted (dt : Q) (m : Mounting) :
  Unmounted m -> Unmounted (elapse dt m).
Proof.
  intros (A & B & C). unfold elapse. rewrite C. simpl.
  split; [exact A |]. split; [exact B | reflexivity].
Qed.

Lemma elapse_shown (dt : Q) (m : Mounting) :
  Shown m -> Shown (elapse dt m).
Proof.
  intros (A & B & C). unfold elapse. rewrite C. simpl.
  split; [exact A |]. split; [exact B | reflexivity].
Qed.

Lemma elapseAll_unmounted (dts : list Q) :
  forall m, Unmounted m -> Unmounted (elapseAll dts m).
Proof.
  induction dts as [| dt dts IH]; intros m H; [exact H |].
  simpl. apply IH. apply elapse_unmounted. exact H.
Qed.

Lemma elapseAll_shown (dts : list Q) :
  forall m, Shown m -> Shown (elapseAll dts m).
Proof.
  induction dts as [| dt dts IH]; intros m H; [exact H |].
  simpl. apply IH. apply elapse_shown. exact H.
Qed.

(** An open request during the grace period cancels the timer. *)
Lemma setShowing_true_closing (rem : Q) (m : Mounting) :
  Closing rem m -> Shown (setShowing duration true m).
Proof.
  intros (A & B & id & r & C & D & F & G).
  unfold setShowing. rewrite A. simpl.
  unfold effectCleanup, effectBody, clearPending. simpl.
  rewrite F. apply Nat.eqb_neq in G. rewrite G. simpl.
  rewrite C. simpl. rewrite Nat.eqb_refl. simpl.
  split; [reflexivity |]. split; reflexivity.
Qed.

Lemma total_nonneg (dts : list Q) :
  Forall (fun dt => 0 <= dt) dts -> 0 <= total dts.
Proof.
  induction 1 as [| dt dts Hdt _ IH]; unfold total in *; simpl; lra.
Qed.

(** While less than the remaining time has passed, the content stays. *)
Lemma elapseAll_closing (dts : list Q) :
  forall rem m,
    Closing rem m ->
    Forall (fun dt => 0 <= dt) dts ->
    total dts < rem ->
    Closing (rem - total dts) (elapseAll dts m).
Proof.
  induction dts as [| dt dts IH]; intros rem m Hc Hnn Hlt.
  - simpl. apply (Closing_proper rem); [unfold total; simpl; lra | exact Hc].
  - inversion Hnn as [| ? ? Hdt Hrest]; subst.
    pose proof (total_nonneg dts Hrest) as Hr.
    change (total (dt :: dts)) with (dt + total dts) in *.
    simpl. apply (Closing_proper (rem - dt - total dts)); [lra |].
    apply IH; [| exact Hrest | lra].
    apply elapse_closing_before; [exact Hc | lra].
Qed.

(** Once the remaining time has passed, the content is detached. *)
Lemma elapseAll_unmounts (dts : list Q) :
  forall rem m,
    Closing rem m ->
    0 < rem ->
    Forall (fun dt => 0 <= dt) dts ->
    rem <= total dts ->
    Unmounted (elapseAll dts m).
Proof.
  induction dts as [| dt dts IH]; intros rem m Hc Hpos Hnn Hle.
  - unfold total in Hle. simpl in Hle. lra.
  - inversion Hnn as [| ? ? Hdt Hrest]; subst.
    change (total (dt :: dts)) with (dt + total dts) in *.
    simpl. destruct (Qlt_le_dec dt rem) as [Hlt | Hge].
    + apply (IH (rem - dt)); [| lra | exact Hrest | lra].
      apply elapse_closing_before; assumption.
    + apply elapseAll_unmounted. apply (elapse_closing_after rem); assumption.
Qed.

Lemma Closing_renders (rem : Q) (m : Mounting) :
  Closing rem m -> rendersChildren m = true.
Proof.
  intros (_ & B & _). unfold rendersChildren. rewrite B. reflexivity.
Qed.

Lemma Unmounted_renders (m : Mounting) :
  Unmounted m -> rendersChildren m = false.
Proof.
  intros (A & B & _). unfold rendersChildren. rewrite A, B. reflexivity.
Qed.

Lemma Shown_renders (m : Mounting) :
  Shown m -> rendersChildren m = true /\ isMounted m = true.
Proof.
  intros (A & B & _). unfold rendersChildren. rewrite A, B. auto.
Qed.

End AnimatedRender.

(** C9. Whatever open and close requests and delays came before, when an
    open drawer is asked to close its content stays rendered as long as
    less than the grace duration has passed, and is no longer rendered once
    the grace duration has passed.  An open request before that cancels the
    pending timer, and the content then stays mounted however much time
    passes. *)
Theorem unmount_after_grace (duration : Q) (s0 : bool) (es : list MountEvent)
    (dts : list Q) :
  0 < duration ->
  showing (runMounting duration es (mount duration s0)) = true ->
  Forall (fun dt => 0 <= dt) dts ->
  (total dts < duration ->
   rendersChildren (afterClose duration s0 es dts) = true /\
   timers (setShowing duration true (afterClose duration s0 es dts)) = [] /\
   forall later,
     rendersChildren
       (elapseAll later (setShowing duration true (afterClose duration s0 es dts)))
     = true /\
     isMounted
       (elapseAll later (setShowing duration true (afterClose duration s0 es dts)))
     = true) /\
  (duration <= total dts ->
   rendersChildren (afterClose duration s0 es dts) = false).
Proof.
  intros Hpos Hsh Hnn.
  assert (Hi : MountingInv (runMounting duration es (mount duration s0)))
    by (apply runMounting_inv, mount_inv).
  pose proof (setShowing_false_closing duration _ Hi Hsh) as Hc.
  unfold afterClose. split.
  - intro Hlt.
    pose proof (elapseAll_closing dts duration _ Hc Hnn Hlt) as Hc'.
    split; [exact (Closing_renders _ _ Hc') |].
    pose proof (setShowing_true_closing duration _ _ Hc') as Hs.
    split; [apply Hs |].
    intro later. apply Shown_renders. apply elapseAll_shown. exact Hs.
  - intro Hle. apply Unmounted_renders.
    apply (elapseAll_unmounts dts duration); assumption.
Qed.

Lemma unmount_after_grace_witness :
  (total [200; 299] < graceDuration ->
   rendersChildren
     (afterClose graceDuration false [SetShowing true; Elapse 100] [200; 299])
   = true /\
   timers (setShowing graceDuration true
             (afterClose graceDuration false [SetShowing true; Elapse 100]
                [200; 299])) = [] /\
   forall later,
     rendersChildren
       (elapseAll later
          (setShowing graceDuration true
             (afterClose graceDuration false [SetShowing true; Elapse 100]
                [200; 299])))
     = true /\
     isMounted
       (elapseAll later
          (setShowing graceDuration true
             (afterClose graceDuration false [SetShowing true; Elapse 100]
                [200; 299])))
     = true) /\
  (graceDuration <= total [200; 299] ->
   rendersChildren
     (afterClose graceDuration false [SetShowing true; Elapse 100] [200; 299])
   = false).
Proof.
  apply (unmount_after_grace graceDuration false [SetShowing true; Elapse 100]
           [200; 299]).
  - reflexivity.
  - reflexivity.
  - repeat constructor; discriminate.
Defined.

(** The drawer's grace period, run: mounted 499 ms after the close request,
    detached 1 ms later, and kept when reopened in between. *)
Example grace_period_run :
  rendersChildren (afterClose graceDuration false [SetShowing true] [499]) = true /\
  rendersChildren (afterClose graceDuration false [SetShowing true] [499; 1]) = false /\
  rendersChildren
    (elapseAll [1000]
       (setShowing graceDuration true
          (afterClose graceDuration false [SetShowing true] [499]))) = true.
Proof.
  repeat split.
Qed.

(* ================================================================== *)
(** * Further properties of the drawer *)

(* ------------------------------------------------------------------ *)
(** ** The open/close effect *)


(** X2. After the open/close effect the recorded position and the drawer's
    transform agree, the drawer and a mounted overlay are in transition for
    [DURATION] milliseconds, the overlay's target opacity is 1 for an open
    drawer and 0 for a closed one, a missing overlay stays missing, and
    neither the gesture fields nor the count of [onClose] calls change. *)
Theorem openCloseEffect_synchronises (r : Render) (w : World) :
  styles (drawer (openCloseEffect r w))
    = translateY (dragState (openCloseEffect r w)) /\
  transition (drawer (openCloseEffect r w)) = TransitionMs DURATION /\
  overlay (openCloseEffect r w)
    = option_map
        (fun _ => mkSurface (Fin (if isOpen r then 1 else 0))
                            (TransitionMs DURATION) (Some DURATION))
        (overlay w) /\
  dragDirection (dragState (openCloseEffect r w)) = dragDirection (dragState w) /\
  isDragging (dragState (openCloseEffect r w)) = isDragging (dragState w) /\
  touchStartedOnDrawer (dragState (openCloseEffect r w))
    = touchStartedOnDrawer (dragState w) /\
  closeCalls (openCloseEffect r w) = closeCalls w.
Proof.
  unfold openCloseEffect.
  destruct (isOpen r), (truthy_opt (peekHeight r)); simpl;
    destruct (overlay w); repeat split.
Qed.

(* ------------------------------------------------------------------ *)
(** ** The outcomes of a release *)

Lemma snapTarget_cases (r : Render) (y : Q) :
  snapTarget r y = getPeekOpenTranslateY r \/
  snapTarget r y = getFullOpenTranslateY r.
Proof.
  unfold snapTarget.
  destruct (truthy_opt (peekHeight r)); [| right; reflexivity].
  destruct (truthy (getPeekOpenTranslateY r)); [| right; reflexivity].
  destruct (Qlt_bool _ _); [left | right]; reflexivity.
Qed.

(** X3. A release with direction [up] settles at the full-open offset, with or
    without a peek height, wherever the drawer was: position and transform
    are set to it with a transition and [onClose] is not called. *)
Theorem release_up_settles_at_full (r : Render) (w : World) :
  dragDirection (dragState w) = Some Up ->
  translateY (dragState (handleDragEnd r w)) = getFullOpenTranslateY r /\
  drawer (handleDragEnd r w)
    = mkSurface (getFullOpenTranslateY r) (TransitionMs DURATION) (Some DURATION) /\
  closeCalls (handleDragEnd r w) = closeCalls w.
Proof.
  intro H. unfold handleDragEnd, direction_is. simpl. rewrite H. simpl.
  destruct (truthy_opt (peekHeight r)); repeat split.
Qed.

Lemma release_up_settles_at_full_witness :
  translateY (dragState (handleDragEnd (peekRender true)
                (runMoves (peekRender true) [mkMoveEvent 400 800 780]
                   grabbedPeekWorld)))
    = getFullOpenTranslateY (peekRender true) /\
  drawer (handleDragEnd (peekRender true)
            (runMoves (peekRender true) [mkMoveEvent 400 800 780]
               grabbedPeekWorld))
    = mkSurface (getFullOpenTranslateY (peekRender true))
                (TransitionMs DURATION) (Some DURATION) /\
  closeCalls (handleDragEnd (peekRender true)
                (runMoves (peekRender true) [mkMoveEvent 400 800 780]
                   grabbedPeekWorld))
    = closeCalls (runMoves (peekRender true) [mkMoveEvent 400 800 780]
                    grabbedPeekWorld).
Proof.
  apply (release_up_settles_at_full (peekRender true)
           (runMoves (peekRender true) [mkMoveEvent 400 800 780] grabbedPeekWorld)).
  reflexivity.
Defined.

(** X4. A pointer-up calls [onClose] at most once, and it does exactly when the
    direction is [down] and the drawer is not above a configured peek
    offset: no peek height, or a recorded position at or below the peek
    offset. *)
Theorem release_closes_iff (r : Render) (w : World) :
  (closeCalls (handleDragEnd r w) = closeCalls w \/
   closeCalls (handleDragEnd r w) = S (closeCalls w)) /\
  (closeCalls (handleDragEnd r w) = S (closeCalls w) <->
   dragDirection (dragState w) = Some Down /\
   (truthy_opt (peekHeight r) = false \/
    getPeekOpenTranslateY r <= translateY (dragState w))).
Proof.
  unfold handleDragEnd, direction_is. cbn [dragState setDragState dragDirection
    setIsDragging translateY].
  destruct (dragDirection (dragState w)) as [[|] |];
    destruct (truthy_opt (peekHeight r)) eqn:Ep;
    destruct (Qlt_bool (translateY (dragState w)) (getPeekOpenTranslateY r)) eqn:El;
    cbn -[snapTarget getPeekOpenTranslateY getFullOpenTranslateY Qle];
    (split; [auto |]);
    (split; [intro H | intros [Hd Hc]]);
    try discriminate; try (exfalso; lia); try reflexivity.
  all: try (split; [reflexivity |]).
  all: try (right; apply Qlt_bool_false_iff; exact El).
  all: try (left; reflexivity).
  destruct Hc as [Hc | Hc]; [discriminate |].
  apply Qlt_bool_iff in El. lra.
Qed.

(** X5. A release that does not call [onClose] leaves the drawer on a canonical
    offset: the recorded position equals the transform just written, and it
    is the peek offset or the full-open offset. *)
Theorem release_lands_on_canonical_offset (r : Render) (w : World) :
  closeCalls (handleDragEnd r w) = closeCalls w ->
  translateY (dragState (handleDragEnd r w)) = styles (drawer (handleDragEnd r w)) /\
  transition (drawer (handleDragEnd r w)) = TransitionMs DURATION /\
  (translateY (dragState (handleDragEnd r w)) = getPeekOpenTranslateY r \/
   translateY (dragState (handleDragEnd r w)) = getFullOpenTranslateY r).
Proof.
  unfold handleDragEnd, direction_is. cbn [dragState setDragState dragDirection
    setIsDragging translateY].
  destruct (dragDirection (dragState w)) as [[|] |];
    destruct (truthy_opt (peekHeight r)) eqn:Ep;
    destruct (Qlt_bool (translateY (dragState w)) (getPeekOpenTranslateY r)) eqn:El;
    cbn -[snapTarget getPeekOpenTranslateY getFullOpenTranslateY];
    intro H; try (exfalso; lia);
    (split; [reflexivity |]); (split; [reflexivity |]);
    auto using snapTarget_cases.
Qed.

Lemma release_lands_on_canonical_offset_witness :
  translateY (dragState (handleDragEnd (peekRender true) draggedDownWorld))
    = styles (drawer (handleDragEnd (peekRender true) draggedDownWorld)) /\
  transition (drawer (handleDragEnd (peekRender true) draggedDownWorld))
    = TransitionMs DURATION /\
  (translateY (dragState (handleDragEnd (peekRender true) draggedDownWorld))
     = getPeekOpenTranslateY (peekRender true) \/
   translateY (dragState (handleDragEnd (peekRender true) draggedDownWorld))
     = getFullOpenTranslateY (peekRender true)).
Proof.
  apply (release_lands_on_canonical_offset (peekRender true) draggedDownWorld).
  reflexivity.
Defined.

(* ------------------------------------------------------------------ *)
(** ** Following the pointer *)

(** X6. The grabbed point stays under the pointer: after any moves of a gesture
    the recorded position is the drawer's top edge at pointer-down shifted
    by the pointer's displacement from the drag start.  It depends on the
    last move only, not on the path. *)
Theorem recorded_position_follows_pointer
    (r : Render) (s : StartEvent) (ms : list MoveEvent) (m : MoveEvent)
    (w : World) :
  translateY (dragState (runMoves r (ms ++ [m]) (handleDragStart s w)))
  == rectTop s + (clientY m - startClientY s).
Proof.
  rewrite runMoves_records_last by reflexivity.
  unfold proposedTranslateY. simpl. ring.
Qed.

(** X7. Once the pointer is up, pointer-moves change nothing until the next
    pointer-down. *)
Theorem moves_after_release_do_nothing (r : Render) (ms : list MoveEvent)
    (w : World) :
  runMoves r ms (handleDragEnd r w) = handleDragEnd r w.
Proof.
  induction ms as [| m ms IH]; [reflexivity |].
  change (runMoves r (m :: ms) (handleDragEnd r w))
    with (runMoves r ms (handleDragMove r m (handleDragEnd r w))).
  rewrite handleDragMove_idle; [exact IH |].
  apply handleDragEnd_not_dragging.
Qed.

(** X8. The deadband: a move less than 15 pixels from the drag start changes
    neither the direction nor the overlay, whatever else it does. *)
Theorem move_within_deadband (r : Render) (e : MoveEvent) (w : World) :
  Qabs (clientY e - dragStartY (dragState w)) < 15 ->
  dragDirection (dragState (handleDragMove r e w)) = dragDirection (dragState w) /\
  overlay (handleDragMove r e w) = overlay w.
Proof.
  intro Hd.
  destruct (isDragging (dragState w)) eqn:E.
  - rewrite (handleDragMove_dragging r e w E). cbv zeta.
    apply Qlt_bool_iff in Hd. rewrite Hd.
    destruct (Qle_bool _ _); split; reflexivity.
  - rewrite (handleDragMove_idle r e w E). split; reflexivity.
Qed.

Lemma move_within_deadband_witness :
  dragDirection (dragState (handleDragMove (peekRender true)
                              (mkMoveEvent 710 800 780) grabbedPeekWorld))
    = dragDirection (dragState grabbedPeekWorld) /\
  overlay (handleDragMove (peekRender true) (mkMoveEvent 710 800 780)
             grabbedPeekWorld) = overlay grabbedPeekWorld.
Proof.
  apply (move_within_deadband (peekRender true) (mkMoveEvent 710 800 780)
           grabbedPeekWorld).
  vm_compute. reflexivity.
Defined.

(** X9. The drag constraint: a move either leaves the drawer element as it was
    or writes the proposed position, and then strictly less than the
    drawer's rendered height is showing.  The transition and the pending
    timer of the element are never touched by a move. *)
Theorem move_never_overshoots (r : Render) (e : MoveEvent) (w : World) :
  (drawer (handleDragMove r e w) = drawer w \/
   (styles (drawer (handleDragMove r e w)) = proposedTranslateY e (dragState w) /\
    innerHeight e - styles (drawer (handleDragMove r e w)) < rectHeight e)) /\
  transition (drawer (handleDragMove r e w)) = transition (drawer w) /\
  pendingClear (drawer (handleDragMove r e w)) = pendingClear (drawer w).
Proof.
  destruct (isDragging (dragState w)) eqn:E.
  - rewrite (handleDragMove_dragging r e w E). cbv zeta.
    destruct (Qle_bool (rectHeight e)
                (innerHeight e - proposedTranslateY e (dragState w))) eqn:G.
    + repeat split. left. reflexivity.
    + apply Qle_bool_false_iff in G.
      split_move; (split; [right; split; [reflexivity | exact G] |]);
        split; reflexivity.
  - rewrite (handleDragMove_idle r e w E). repeat split. left. reflexivity.
Qed.

(** A move during a drag that passes the guard writes the position it
    proposes on the drawer element. *)
Lemma handleDragMove_accepted (r : Render) (e : MoveEvent) (w : World) :
  isDragging (dragState w) = true ->
  innerHeight e - proposedTranslateY e (dragState w) < rectHeight e ->
  styles (drawer (handleDragMove r e w)) = proposedTranslateY e (dragState w).
Proof.
  intros Hd Hg. rewrite (handleDragMove_dragging r e w Hd). cbv zeta.
  apply Qle_bool_false_iff in Hg. rewrite Hg.
  split_move; reflexivity.
Qed.

(** X10. A drawer whose bottom edge rests on the viewport bottom cannot be
    dragged further open: a move at or above the drag start leaves the
    element, the overlay and the direction as they were, and a move below
    the drag start is followed by the element. *)
Theorem resting_drawer_only_moves_down
    (r : Render) (s : StartEvent) (m : MoveEvent) (w : World) :
  rectTop s + rectHeight m == innerHeight m ->
  (clientY m <= startClientY s ->
   drawer (handleDragMove r m (handleDragStart s w)) = drawer w /\
   overlay (handleDragMove r m (handleDragStart s w)) = overlay w /\
   dragDirection (dragState (handleDragMove r m (handleDragStart s w)))
     = dragDirection (dragState w)) /\
  (startClientY s < clientY m ->
   styles (drawer (handleDragMove r m (handleDragStart s w)))
   == rectTop s + (clientY m - startClientY s)).
Proof.
  intro Hrest.
  assert (Hd : isDragging (dragState (handleDragStart s w)) = true) by reflexivity.
  assert (Hp : proposedTranslateY m (dragState (handleDragStart s w))
               == rectTop s + (clientY m - startClientY s))
    by (unfold proposedTranslateY; simpl; ring).
  split; intro H.
  - rewrite handleDragMove_rejected; [repeat split | exact Hd | lra].
  - rewrite handleDragMove_accepted; [exact Hp | exact Hd | lra].
Qed.

Lemma resting_drawer_only_moves_down_witness :
  (clientY (mkMoveEvent 550 800 300) <= startClientY (mkStartEvent 600 500) ->
   drawer (handleDragMove (basicRender true) (mkMoveEvent 550 800 300)
             (handleDragStart (mkStartEvent 600 500)
                (openedWorld (basicRender true))))
     = drawer (openedWorld (basicRender true)) /\
   overlay (handleDragMove (basicRender true) (mkMoveEvent 550 800 300)
              (handleDragStart (mkStartEvent 600 500)
                 (openedWorld (basicRender true))))
     = overlay (openedWorld (basicRender true)) /\
   dragDirection (dragState
                    (handleDragMove (basicRender true) (mkMoveEvent 550 800 300)
                       (handleDragStart (mkStartEvent 600 500)
                          (openedWorld (basicRender true)))))
     = dragDirection (dragState (openedWorld (basicRender true)))) /\
  (startClientY (mkStartEvent 600 500) < clientY (mkMoveEvent 550 800 300) ->
   styles (drawer (handleDragMove (basicRender true) (mkMoveEvent 550 800 300)
                     (handleDragStart (mkStartEvent 600 500)
                        (openedWorld (basicRender true)))))
   == rectTop (mkStartEvent 600 500)
      + (clientY (mkMoveEvent 550 800 300) - startClientY (mkStartEvent 600 500))).
Proof.
  apply (resting_drawer_only_moves_down (basicRender true)
           (mkStartEvent 600 500) (mkMoveEvent 550 800 300)
           (openedWorld (basicRender true))).
  vm_compute. reflexivity.
Defined.

(** X11. Without a peek height, with the viewport height of the render equal to
    the window's inner height and a drawer of non-negative height, every
    classified move that passes the guard writes an opacity between 0 and 1
    on the overlay. *)
Theorem drag_opacity_in_unit_interval_without_peek
    (r : Render) (e : MoveEvent) (w : World) (o : Surface JsNum) :
  isDragging (dragState w) = true ->
  truthy_opt (peekHeight r) = false ->
  viewportHeight r == innerHeight e ->
  0 <= rectHeight e ->
  innerHeight e - proposedTranslateY e (dragState w) < rectHeight e ->
  15 <= Qabs (clientY e - dragStartY (dragState w)) ->
  overlay w = Some o ->
  exists v,
    overlay (handleDragMove r e w)
    = Some (mkSurface v (transition o) (pendingClear o)) /\
    in_unit_interval v.
Proof.
  intros Hd Hp Hv Hh Hg Hdiff Ho.
  rewrite (handleDragMove_overlay r e w o Hd Hg Hdiff Ho).
  eexists. split; [reflexivity |].
  set (y := proposedTranslateY e (dragState w)) in *.
  assert (Et : bottomThreshold r (rectHeight e) = viewportHeight r - rectHeight e).
  { unfold bottomThreshold. unfold truthy_opt in Hp.
    destruct (peekHeight r) as [p |]; [rewrite Hp |]; reflexivity. }
  destruct (Qlt_le_dec 0 (rectHeight e)) as [Hpos | Hzero].
  - rewrite dragOpacity_finite by (rewrite Et; lra).
    rewrite Et.
    set (l := linearOpacity (viewportHeight r - rectHeight e) (viewportHeight r) y).
    assert (Hl : l <= 1)
      by (apply linearOpacity_le_1; lra).
    destruct (Qlt_bool l 0) eqn:E; simpl.
    + lra.
    + apply Qlt_bool_false_iff in E. lra.
  - unfold dragOpacity, js_div. rewrite Et.
    assert (E0 : Qeq_bool (viewportHeight r - (viewportHeight r - rectHeight e)) 0
                 = true) by (apply Qeq_bool_iff; lra).
    assert (E1 : Qeq_bool (y - (viewportHeight r - rectHeight e)) 0 = false).
    { destruct (Qeq_bool (y - (viewportHeight r - rectHeight e)) 0) eqn:E;
        [| reflexivity].
      apply Qeq_bool_iff in E. lra. }
    assert (E2 : Qlt_bool 0 (y - (viewportHeight r - rectHeight e)) = true)
      by (apply Qlt_bool_iff; lra).
    rewrite E0, E1, E2. simpl. lra.
Qed.

Lemma drag_opacity_in_unit_interval_without_peek_witness :
  exists v,
    overlay (handleDragMove (basicRender true) (mkMoveEvent 700 800 300)
               grabbedBasicWorld)
    = Some (mkSurface v (TransitionMs DURATION) (Some DURATION)) /\
    in_unit_interval v.
Proof.
  apply (drag_opacity_in_unit_interval_without_peek (basicRender true)
           (mkMoveEvent 700 800 300) grabbedBasicWorld
           (mkSurface (Fin 1) (TransitionMs DURATION) (Some DURATION))).
  - reflexivity.
  - reflexivity.
  - reflexivity.
  - vm_compute. discriminate.
  - vm_compute. reflexivity.
  - vm_compute. discriminate.
  - reflexivity.
Defined.

(* ------------------------------------------------------------------ *)
(** ** Clicks on the overlay *)





(* ------------------------------------------------------------------ *)
(** ** Keys and the background *)

(** X13. Keys other than Escape do nothing; the comparison is exact, so
    ["escape"] and ["Esc"] are other keys. *)
Theorem other_keys_do_nothing (r : Render) (k : string) (w : World) :
  k <> "Escape"%string ->
  drawerKeydown r k w = w.
Proof.
  intro H. unfold drawerKeydown, handleKeyPress.
  apply String.eqb_neq in H. rewrite H. reflexivity.
Qed.

Lemma other_keys_do_nothing_witness :
  drawerKeydown (peekRender true) "escape" (openedWorld (peekRender true))
  = openedWorld (peekRender true).
Proof.
  apply (other_keys_do_nothing (peekRender true) "escape"
           (openedWorld (peekRender true))).
  discriminate.
Defined.

(** X14. With a root element wider than the two insets, the scale of the
    background behind an open drawer is a finite number strictly between 0
    and 1, and the scaled root is narrower than the root by 8 pixels on each
    side. *)
Theorem background_scale_insets (w : World) (b : Surface BackgroundStyle) :
  root w = Some b ->
  BACKGROUND_INSET + BACKGROUND_INSET < rootWidth w ->
  exists q,
    getBackgroundOutScale w = Fin q /\
    0 < q /\ q < 1 /\
    q * rootWidth w == rootWidth w - BACKGROUND_INSET - BACKGROUND_INSET.
Proof.
  intros Hr Hw. unfold getBackgroundOutScale, js_div. rewrite Hr.
  unfold BACKGROUND_INSET in *.
  assert (E : Qeq_bool (rootWidth w) 0 = false).
  { destruct (Qeq_bool (rootWidth w) 0) eqn:E; [| reflexivity].
    apply Qeq_bool_iff in E. lra. }
  rewrite E. eexists. split; [reflexivity |].
  assert (Hpos : 0 < rootWidth w) by lra.
  split; [| split].
  - apply Qlt_shift_div_l; lra.
  - apply Qlt_shift_div_r; lra.
  - field. lra.
Qed.

Lemma background_scale_insets_witness :
  exists q,
    getBackgroundOutScale (initialWorld (basicRender true)) = Fin q /\
    0 < q /\ q < 1 /\
    q * rootWidth (initialWorld (basicRender true))
    == rootWidth (initialWorld (basicRender true))
       - BACKGROUND_INSET - BACKGROUND_INSET.
Proof.
  apply (background_scale_insets (initialWorld (basicRender true))
           (mkSurface (mkBackgroundStyle (Fin 1) 0 0) TransitionNone None)).
  - reflexivity.
  - vm_compute. reflexivity.
Defined.

(* ------------------------------------------------------------------ *)
(** ** The listeners the drag effect leaves behind *)

Lemma addEventListener_fresh (l : Listener) (ls : list Listener) :
  existsb (listener_eqb l) ls = false -> addEventListener l ls = ls ++ [l].
Proof.
  intro H. unfold addEventListener. rewrite H. reflexivity.
Qed.

Lemma existsb_clicks_other (l : Listener) (ks : list nat) :
  type_eqb (listenerType l) Click = false ->
  existsb (listener_eqb l) (map (mkListener DrawerElement Click) ks) = false.
Proof.
  intro H. induction ks as [| k ks IH]; [reflexivity |].
  simpl. rewrite IH. unfold listener_eqb. simpl. rewrite H.
  rewrite andb_false_r. reflexivity.
Qed.

Lemma existsb_clicks_new (j : nat) (ks : list nat) :
  (forall k, In k ks -> k <> j) ->
  existsb (listener_eqb (mkListener DrawerElement Click j))
          (map (mkListener DrawerElement Click) ks) = false.
Proof.
  intro H. induction ks as [| k ks IH]; [reflexivity |].
  simpl. rewrite IH by (intros k' Hk'; apply H; right; exact Hk').
  unfold listener_eqb. simpl.
  assert (E : Nat.eqb j k = false).
  { apply Nat.eqb_neq. intro E. apply (H k (or_introl eq_refl)). auto. }
  rewrite E. reflexivity.
Qed.

Lemma removeEventListener_clicks (l : Listener) (ks : list nat)
    (rest : list Listener) :
  type_eqb (listenerType l) Click = false ->
  removeEventListener l (map (mkListener DrawerElement Click) ks ++ rest)
  = map (mkListener DrawerElement Click) ks ++ removeEventListener l rest.
Proof.
  intro H. unfold removeEventListener. rewrite filter_app. f_equal.
  induction ks as [| k ks IH]; [reflexivity |].
  simpl. rewrite IH. unfold listener_eqb. simpl. rewrite H.
  rewrite andb_false_r. reflexivity.
Qed.

(** The cleanup removes the six gesture listeners of its run and leaves the
    [click] listeners where they are. *)
Lemma dragEffectCleanup_clicks (n run : nat) :
  dragEffectCleanup run (clickListeners n ++ gestureListeners run)
  = clickListeners n.
Proof.
  unfold dragEffectCleanup, clickListeners. cbv zeta.
  rewrite !removeEventListener_clicks by reflexivity.
  unfold gestureListeners, removeEventListener, listener_eqb.
  do 6 (cbn; rewrite ?Nat.eqb_refl). cbn. apply app_nil_r.
Qed.

(** A run on an element that holds only older [click] listeners appends its
    own [click] listener and its six gesture listeners. *)
Lemma dragEffectSetup_clicks (n : nat) :
  dragEffectSetup n (clickListeners n)
  = clickListeners (S n) ++ gestureListeners n.
Proof.
  unfold dragEffectSetup. cbv zeta.
  rewrite (addEventListener_fresh (mkListener DrawerElement Click n)).
  2: { apply existsb_clicks_new. intros k Hk. apply in_seq in Hk. lia. }
  assert (E : clickListeners n ++ [mkListener DrawerElement Click n]
              = clickListeners (S n)).
  { unfold clickListeners. rewrite seq_S, map_app. reflexivity. }
  rewrite E. unfold clickListeners.
  rewrite (addEventListener_fresh (mkListener DrawerElement MouseDown n))
    by (apply existsb_clicks_other; reflexivity).
  rewrite (addEventListener_fresh (mkListener DrawerElement TouchStart n))
    by (rewrite !existsb_app, existsb_clicks_other by reflexivity; reflexivity).
  rewrite (addEventListener_fresh (mkListener Window MouseMove n))
    by (rewrite !existsb_app, existsb_clicks_other by reflexivity; reflexivity).
  rewrite (addEventListener_fresh (mkListener Window TouchMove n))
    by (rewrite !existsb_app, existsb_clicks_other by reflexivity; reflexivity).
  rewrite (addEventListener_fresh (mkListener Window MouseUp n))
    by (rewrite !existsb_app, existsb_clicks_other by reflexivity; reflexivity).
  rewrite (addEventListener_fresh (mkListener Window TouchEnd n))
    by (rewrite !existsb_app, existsb_clicks_other by reflexivity; reflexivity).
  rewrite <- !app_assoc. reflexivity.
Qed.

Lemma dragEffectRuns_shape (n : nat) :
  dragEffectRuns n = clickListeners (S n) ++ gestureListeners n.
Proof.
  induction n as [| n IH]; [reflexivity |].
  change (dragEffectRuns (S n))
    with (dragEffectSetup (S n) (dragEffectCleanup n (dragEffectRuns n))).
  rewrite IH, dragEffectCleanup_clicks. apply dragEffectSetup_clicks.
Qed.

Lemma countListeners_clicks (t : EventTarget) (e : EventType) (n : nat) :
  countListeners t e (clickListeners n)
  = if target_eqb DrawerElement t && type_eqb Click e then n else 0%nat.
Proof.
  unfold countListeners, clickListeners.
  assert (H : forall ks,
             List.length
               (filter (fun l => target_eqb (listenerTarget l) t
                                 && type_eqb (listenerType l) e)
                       (map (mkListener DrawerElement Click) ks))
             = if target_eqb DrawerElement t && type_eqb Click e
               then List.length ks else 0%nat).
  { intro ks. destruct t, e; induction ks as [| k ks IH]; simpl;
      rewrite ?IH; reflexivity. }
  rewrite H, length_seq. reflexivity.
Qed.

Lemma dispatchDrawerClick_clicks (b : bool) (ks : list nat) :
  forall w,
    closeCalls (dispatchDrawerClick b (map (mkListener DrawerElement Click) ks) w)
    = (closeCalls w + (if b then List.length ks else 0))%nat.
Proof.
  induction ks as [| k ks IH]; intro w; simpl.
  - destruct b; lia.
  - unfold dispatchDrawerClick in *. rewrite IH.
    destruct b; simpl; lia.
Qed.

Lemma dispatchDrawerClick_app (b : bool) (l1 l2 : list Listener) (w : World) :
  dispatchDrawerClick b (l1 ++ l2) w
  = dispatchDrawerClick b l2 (dispatchDrawerClick b l1 w).
Proof.
  unfold dispatchDrawerClick. apply fold_left_app.
Qed.

Lemma dispatchDrawerClick_gestures (b : bool) (run : nat) (w : World) :
  dispatchDrawerClick b (gestureListeners run) w = w.
Proof. reflexivity. Qed.

(** A click that is not on the close button runs the listeners and changes
    nothing. *)
Lemma dispatchDrawerClick_miss (ls : list Listener) :
  forall w, dispatchDrawerClick false ls w = w.
Proof.
  induction ls as [| l ls IH]; intro w; [reflexivity |].
  unfold dispatchDrawerClick in *. simpl.
  destruct (target_eqb _ _ && type_eqb _ _); apply IH.
Qed.

(** X15. The cleanup of the drag effect removes six of the seven listeners it
    registered, not the [click] listener.  After the effect has run [S n]
    times on one drawer element, the element carries [S n] [click]
    listeners and one listener of every other kind; a click on the close
    button then calls [onClose] [S n] times; and after the last cleanup the
    [S n] [click] listeners are all that is left. *)
Theorem click_listeners_accumulate (n : nat) (w : World) :
  countListeners DrawerElement Click (dragEffectRuns n) = S n /\
  countListeners DrawerElement MouseDown (dragEffectRuns n) = 1%nat /\
  countListeners DrawerElement TouchStart (dragEffectRuns n) = 1%nat /\
  countListeners Window MouseMove (dragEffectRuns n) = 1%nat /\
  countListeners Window TouchMove (dragEffectRuns n) = 1%nat /\
  countListeners Window MouseUp (dragEffectRuns n) = 1%nat /\
  countListeners Window TouchEnd (dragEffectRuns n) = 1%nat /\
  closeCalls (dispatchDrawerClick true (dragEffectRuns n) w)
    = (closeCalls w + S n)%nat /\
  dispatchDrawerClick false (dragEffectRuns n) w = w /\
  dragEffectCleanup n (dragEffectRuns n) = clickListeners (S n) /\
  List.length (dragEffectCleanup n (dragEffectRuns n)) = S n.
Proof.
  rewrite dragEffectRuns_shape.
  assert (C : forall t e,
             countListeners t e (clickListeners (S n) ++ gestureListeners n)
             = (countListeners t e (clickListeners (S n))
                + countListeners t e (gestureListeners n))%nat).
  { intros t e. unfold countListeners. rewrite filter_app, length_app. reflexivity. }
  rewrite !C, !countListeners_clicks.
  do 7 (split; [cbn; lia |]).
  split; [| split; [| split]].
  - rewrite dispatchDrawerClick_app, dispatchDrawerClick_gestures.
    unfold clickListeners.
    rewrite dispatchDrawerClick_clicks, length_seq. reflexivity.
  - rewrite dispatchDrawerClick_app, dispatchDrawerClick_gestures.
    apply dispatchDrawerClick_miss.
  - apply dragEffectCleanup_clicks.
  - rewrite dragEffectCleanup_clicks. unfold clickListeners.
    rewrite length_map, length_seq. reflexivity.
Qed.

(* ------------------------------------------------------------------ *)
(** ** The animation driver and its timers *)

Section AnimationChannel.

Variable A : Type.

(** When every pending timer is the one the ref names, the [clearTimeout]
    at the head of [animate] leaves nothing pending. *)
Lemma animate_clears_pending (ref : option nat) (ts : list (nat * Q)) :
  (forall t, In t ts -> ref = Some (fst t) /\ fst t <> 0%nat) ->
  match ref with
  | Some id => if Nat.eqb id 0 then ts else clearTimeout id ts
  | None => ts
  end = [].
Proof.
  intro H. destruct ts as [| t ts]; [destruct ref as [id |] |].
  - destruct (Nat.eqb id 0); reflexivity.
  - reflexivity.
  - destruct (H t (or_introl eq_refl)) as [Hr Hz]. subst ref.
    apply Nat.eqb_neq in Hz. rewrite Hz.
    apply clearTimeout_same. intros t' Ht'.
    destruct (H t' Ht') as [Hr' _]. congruence.
Qed.

Lemma animateChannel_inv (s : A) (d : Q) (c : Channel A) :
  ChannelInv c -> ChannelInv (animateChannel s d c).
Proof.
  intros (Ht & Hn & _). unfold ChannelInv, animateChannel. simpl.
  rewrite (animate_clears_pending _ _ Ht).
  split; [| split; [discriminate | simpl; lia]].
  intros t [<- | []]. simpl. split; [reflexivity | exact Hn].
Qed.

Lemma elapseChannel_inv (dt : Q) (c : Channel A) :
  ChannelInv c -> ChannelInv (elapseChannel dt c).
Proof.
  intros (Ht & Hn & Hl). unfold ChannelInv. simpl.
  split; [| split; [exact Hn |]].
  - intros t Hin. apply in_map_iff in Hin. destruct Hin as (t' & <- & Hin).
    apply filter_In in Hin. apply (Ht t'). tauto.
  - rewrite length_map.
    pose proof (filter_length_le (fun t => negb (Qle_bool (snd t) dt)) (chTimers c)).
    lia.
Qed.

Lemma runChannel_inv (es : list (ChannelEvent A)) :
  forall c, ChannelInv c -> ChannelInv (runChannel es c).
Proof.
  induction es as [| e es IH]; intros c Hi; [exact Hi |].
  simpl. apply IH.
  destruct e; [apply animateChannel_inv | apply elapseChannel_inv]; exact Hi.
Qed.

Lemma initialChannel_inv (s : A) : ChannelInv (initialChannel s).
Proof.
  unfold ChannelInv. simpl. split; [intros t [] | split; [discriminate | lia]].
Qed.








End AnimationChannel.

(** X16. On an animation channel at most one timer is pending at any time,
    whatever calls of [animate] and delays came before, and it is the timer
    the channel's ref names: a call of [animate] cancels the timer of the
    call before it. *)
Theorem channel_has_one_timer (A : Type) (s0 : A) (es : list (ChannelEvent A)) :
  (List.length (chTimers (runChannel es (initialChannel s0))) <= 1)%nat /\
  forall t, In t (chTimers (runChannel es (initialChannel s0))) ->
            chTimeoutRef (runChannel es (initialChannel s0)) = Some (fst t).
Proof.
  destruct (runChannel_inv A es _ (initialChannel_inv A s0)) as (Ht & _ & Hl).
  split; [exact Hl |]. intros t Hin. apply (Ht t Hin).
Qed.



(** The [Surface] the gesture handlers work on is what a channel shows:
    [animate] on a channel and [animate] on its surface agree, so the delay
    a surface records as pending is that of the one timer of its channel. *)
Theorem animate_agrees_with_channel (A : Type) (s0 : A)
    (es : list (ChannelEvent A)) (s : A) (d : Q) :
  surfaceOf (animateChannel s d (runChannel es (initialChannel s0)))
  = animate s d (surfaceOf (runChannel es (initialChannel s0))) /\
  chTimers (animateChannel s d (runChannel es (initialChannel s0)))
  = [(chNextTimer (runChannel es (initialChannel s0)), d)].
Proof.
  destruct (runChannel_inv A es _ (initialChannel_inv A s0)) as (Ht & _ & _).
  split; [reflexivity |].
  unfold animateChannel. simpl.
  rewrite (animate_clears_pending _ _ Ht). reflexivity.
Qed.

(* ------------------------------------------------------------------ *)
(** ** AnimatedRender: timers *)

Lemma setShowing_timers (duration : Q) (b : bool) (m : Mounting) :
  MountingInv m ->
  (List.length (timers m) <= 1)%nat ->
  (List.length (timers (setShowing duration b m)) <= 1)%nat.
Proof.
  intros Hi Hl.
  destruct (Bool.eqb b (showing m)) eqn:E.
  - unfold setShowing. rewrite E. exact Hl.
  - destruct b, (showing m) eqn:Hsh; try discriminate.
    + destruct Hi as (Ht & _ & _).
      unfold setShowing. rewrite Hsh. simpl. unfold effectCleanup, effectBody.
      set (m0 := mkMounting true (isMounted m) (timeoutRef m) (timers m)
                            (nextTimer m)).
      destruct (clearPending_frame m0) as (A & _).
      rewrite A. simpl.
      rewrite (clearPending_timers m0) by exact Ht. simpl. lia.
    + rewrite (setShowing_false_from_shown duration m Hi Hsh). simpl. lia.
Qed.

Lemma runMounting_timers (duration : Q) (es : list MountEvent) :
  forall m,
    MountingInv m ->
    (List.length (timers m) <= 1)%nat ->
    (List.length (timers (runMounting duration es m)) <= 1)%nat.
Proof.
  induction es as [| e es IH]; intros m Hi Hl; [exact Hl |].
  simpl. apply IH.
  - destruct e; [apply setShowing_inv | apply elapse_inv]; exact Hi.
  - destruct e as [b | dt]; simpl.
    + apply setShowing_timers; assumption.
    + rewrite length_map.
      pose proof (filter_length_le (fun t => negb (Qle_bool (snd t) dt)) (timers m)).
      lia.
Qed.

(** X18. Whatever open and close requests and delays an instance has seen, at
    most one unmount timer is pending, none is pending while [showing]
    holds, and the content is rendered whenever [showing] holds. *)
Theorem mounting_has_one_timer (duration : Q) (s0 : bool) (es : list MountEvent) :
  (List.length (timers (runMounting duration es (mount duration s0))) <= 1)%nat /\
  (showing (runMounting duration es (mount duration s0)) = true ->
   timers (runMounting duration es (mount duration s0)) = [] /\
   isMounted (runMounting duration es (mount duration s0)) = true /\
   rendersChildren (runMounting duration es (mount duration s0)) = true).
Proof.
  pose proof (runMounting_inv duration es _ (mount_inv duration s0)) as Hi.
  split.
  - apply runMounting_timers; [apply mount_inv |].
    destruct s0; simpl; lia.
  - intro Hs. destruct Hi as (_ & _ & H). destruct (H Hs) as [Hm Ht].
    unfold rendersChildren. rewrite Hm, Ht. auto.
Qed.

(** Asking twice for the same state is asking once: a repeated close
    request does not restart the unmount timer, a repeated open request
    changes nothing. *)
Theorem mounting_requests_idempotent (duration : Q) (b : bool) (m : Mounting) :
  setShowing duration b (setShowing duration b m) = setShowing duration b m.
Proof.
  assert (H : showing (setShowing duration b m) = b).
  { unfold setShowing. destruct (Bool.eqb b (showing m)) eqn:E.
    - apply Bool.eqb_prop in E. auto.
    - unfold effectCleanup, effectBody.
      set (m0 := mkMounting b (isMounted m) (timeoutRef m) (timers m) (nextTimer m)).
      destruct (clearPending_frame m0) as (A & B & _).
      rewrite A. simpl. destruct b; [reflexivity |].
      rewrite B. simpl. destruct (isMounted m); [| exact A].
      simpl. destruct (clearPending_frame (clearPending m0)) as (A' & _).
      rewrite A'. exact A. }
  unfold setShowing at 1. rewrite H, Bool.eqb_reflx. reflexivity.
Qed.

(** X19. An instance first rendered closed renders nothing until it is asked to
    open, however much time passes and however often it is asked to close. *)
Theorem never_opened_renders_nothing (duration : Q) (es : list MountEvent) :
  Forall (fun e => e <> SetShowing true) es ->
  rendersChildren (runMounting duration es (mount duration false)) = false /\
  timers (runMounting duration es (mount duration false)) = [].
Proof.
  intro H.
  assert (G : forall m, Unmounted m -> Unmounted (runMounting duration es m)).
  { induction H as [| e es He _ IH]; intros m Hm; [exact Hm |].
    simpl. apply IH. destruct e as [[|] | dt]; simpl.
    - congruence.
    - destruct Hm as (A & B & C). unfold setShowing. rewrite A. simpl.
      split; [exact A |]. split; assumption.
    - apply elapse_unmounted. exact Hm. }
  assert (U : Unmounted (runMounting duration es (mount duration false))).
  { apply G. repeat split. }
  split; [apply Unmounted_renders; exact U | apply U].
Qed.

Lemma never_opened_renders_nothing_witness :
  rendersChildren (runMounting graceDuration [Elapse 1000; SetShowing false]
                     (mount graceDuration false)) = false /\
  timers (runMounting graceDuration [Elapse 1000; SetShowing false]
            (mount graceDuration false)) = [].
Proof.
  apply (never_opened_renders_nothing graceDuration [Elapse 1000; SetShowing false]).
  repeat constructor; discriminate.
Defined.

(* ------------------------------------------------------------------ *)
(** ** The sample application *)

Lemma pressIterationButton_range (n : Z) (b : IterationButton) :
  (1 <= n <= 10)%Z -> (1 <= pressIterationButton n b <= 10)%Z.
Proof.
  intro H. destruct b; simpl;
    unfold decrementIterations, incrementIterations; lia.
Qed.

(** X20. The number of paragraphs of the dynamic drawer stays between 1 and 10,
    whatever sequence of [+] and [-] buttons is pressed. *)
Theorem content_iterations_in_range (bs : list IterationButton) :
  (1 <= pressAll bs initialIterations <= 10)%Z.
Proof.
  assert (H : forall n, (1 <= n <= 10)%Z -> (1 <= pressAll bs n <= 10)%Z).
  { induction bs as [| b bs IH]; intros n Hn; [exact Hn |].
    simpl. apply IH. apply pressIterationButton_range. exact Hn. }
  apply H. unfold initialIterations. lia.
Qed.

(** X21. Inside the range [+] and [-] undo each other; at the ends they do
    nothing: [+] at 10 and [-] at 1 leave the number as it is. *)
Theorem content_iterations_undo (n : Z) :
  (1 <= n <= 10)%Z ->
  ((n < 10)%Z -> decrementIterations (incrementIterations n) = n) /\
  ((1 < n)%Z -> incrementIterations (decrementIterations n) = n) /\
  incrementIterations 10 = 10%Z /\
  decrementIterations 1 = 1%Z.
Proof.
  intro H. unfold decrementIterations, incrementIterations.
  repeat split; intros; lia.
Qed.

Lemma content_iterations_undo_witness :
  ((4 < 10)%Z -> decrementIterations (incrementIterations 4) = 4%Z) /\
  ((1 < 4)%Z -> incrementIterations (decrementIterations 4) = 4%Z) /\
  incrementIterations 10 = 10%Z /\
  decrementIterations 1 = 1%Z.
Proof.
  apply (content_iterations_undo 4). lia.
Defined.

(* ------------------------------------------------------------------ *)
(** ** More on the distance-based snap and the direction *)



(** X23. Snapping is stable: unless a configured peek offset is zero, the snap
    target of a snap target is that target, so a tap on a drawer that rests
    where the snap put it does not move it. *)
Theorem snap_is_stable (r : Render) (y : Q) :
  (truthy_opt (peekHeight r) = true -> ~ getPeekOpenTranslateY r == 0) ->
  snapTarget r (snapTarget r y) == snapTarget r y.
Proof.
  intro H.
  destruct (truthy_opt (peekHeight r)) eqn:Hp.
  - specialize (H eq_refl).
    assert (F : forall z, snapTarget r z
                = if Qlt_bool (Qabs (z - getPeekOpenTranslateY r))
                              (Qabs (z - getFullOpenTranslateY r))
                  then getPeekOpenTranslateY r else getFullOpenTranslateY r).
    { intro z. unfold snapTarget. rewrite Hp.
      apply truthy_iff in H. rewrite H. reflexivity. }
    set (p := getPeekOpenTranslateY r) in *.
    set (f := getFullOpenTranslateY r) in *.
    rewrite (F y).
    destruct (Qlt_bool (Qabs (y - p)) (Qabs (y - f))) eqn:E; rewrite F.
    + destruct (Qlt_bool (Qabs (p - p)) (Qabs (p - f))) eqn:E'; [reflexivity |].
      apply Qlt_bool_false_iff in E'.
      assert (Z : Qabs (p - p) == 0)
        by (rewrite Qabs_pos; lra).
      assert (Hpf : Qabs (p - f) == 0)
        by (pose proof (Qabs_nonneg (p - f)); lra).
      revert Hpf. apply Qabs_case; intros; lra.
    + destruct (Qlt_bool (Qabs (f - p)) (Qabs (f - f))) eqn:E'; [| reflexivity].
      apply Qlt_bool_iff in E'.
      assert (Z : Qabs (f - f) == 0) by (rewrite Qabs_pos; lra).
      pose proof (Qabs_nonneg (f - p)). lra.
  - rewrite !snapTarget_no_peek by exact Hp. reflexivity.
Qed.

Lemma snap_is_stable_witness :
  snapTarget (peekRender true) (snapTarget (peekRender true) 400)
  == snapTarget (peekRender true) 400.
Proof.
  apply (snap_is_stable (peekRender true) 400).
  intros _ H. vm_compute in H. discriminate.
Defined.

(** X24. No handler writes [null] to the direction: once a move has been
    classified, every later gesture, whatever its moves, reaches its
    pointer-up with a direction, and never takes the distance-based snap. *)
Theorem classified_direction_is_kept
    (r : Render) (s : StartEvent) (ms : list MoveEvent) (w : World) :
  dragDirection (dragState w) <> None ->
  dragDirection (dragState (runMoves r ms (handleDragStart s w))) <> None /\
  dragDirection (dragState (dragSequence r s ms w)) <> None.
Proof.
  intro H. split.
  - apply runMoves_direction_stays.
    rewrite handleDragStart_keeps_direction. exact H.
  - apply direction_never_reset. exact H.
Qed.

Lemma classified_direction_is_kept_witness :
  dragDirection (dragState (runMoves (peekRender true) [mkMoveEvent 705 800 780]
                              (handleDragStart (mkStartEvent 700 650)
                                 settledAtPeekWorld))) <> None /\
  dragDirection (dragState (dragSequence (peekRender true) (mkStartEvent 700 650)
                              [mkMoveEvent 705 800 780] settledAtPeekWorld))
    <> None.
Proof.
  apply (classified_direction_is_kept (peekRender true) (mkStartEvent 700 650)
           [mkMoveEvent 705 800 780] settledAtPeekWorld).
  discriminate.
Defined.
